(** * EventSphere booking-service: the Prometheus metrics middleware

    A shallow embedding of [services/booking-service/src/middleware/metrics.js]
    and the properties its specification states about it.

    The file is organised as the JavaScript module is:
    - the JavaScript values, string operations and numbers the module uses;
    - the route normalisation [route.replace(/\/[a-f0-9]{24}/gi, '/:id')];
    - the part of the [prom-client] library the module calls (registry,
      counter, histogram), which is library code and not part of the
      repository;
    - the Express request and response objects, kept in a store so that the
      callback registered by the middleware reads them when it fires;
    - the module itself: its load-time statements, [metricsMiddleware] and
      [metricsHandler];
    - an event semantics for a running process;
    - the theorems. *)

From Stdlib Require Import ZArith QArith Qabs Qpower Lqa Ascii DecimalString DecimalZ.
From stdpp Require Import gmap strings list.
From Equations Require Import Equations.

#[local] Arguments String.append : simpl nomatch.
#[local] Open Scope Z_scope.

(** ** JavaScript values *)

Module JS.

(** The values that reach [req.route?.path || req.path || 'unknown']:
    a property is absent ([undefined]), or a string, or one of the two other
    things Express accepts as the path of a route and keeps in
    [req.route.path]: a regular expression, as in [app.get(/^\/b\/(\d+)$/, h)],
    or an array of paths, as in [app.get(['/a', '/b'], h)]. *)
#[warnings="-register-all"]
Inductive value : Type :=
| undefined
| str (s : string)
| regexp (source : string)
| array (items : list value).

Inductive error : Type :=
| TypeError (msg : string)
| Error (msg : string).

(** [ToBoolean]: [undefined] and the empty string are falsy; an object is
    truthy, the empty array too. *)
Definition truthy (v : value) : bool :=
  match v with
  | undefined => false
  | str s => negb (String.eqb s "")
  | regexp _ => true
  | array _ => true
  end.

(** [a || b] *)
Definition or (a b : value) : value :=
  if truthy a then a else b.

(** [o?.p]: [undefined] when [o] is absent, the property otherwise. *)
Definition optional {A : Type} (o : option A) (p : A -> value) : value :=
  match o with
  | None => undefined
  | Some x => p x
  end.

(** [n.toString()] for an integer [n]. *)
Definition toString (n : Z) : string :=
  NilEmpty.string_of_int (Z.to_int n).

(** *** Numbers

    A JavaScript number is a double (IEEE 754 binary64).  The finite doubles
    are rationals, and an operation on doubles yields the double nearest to
    the exact result, the one with the even significand when two are as
    near.  The doubles are kept here as the rationals they are.  The range
    of the exponent of a double is left out: the numbers of this module are
    differences of two 64-bit clock readings and their quotients by 10^9,
    between 10^-9 and 2 * 10^10 in magnitude when they are not zero. *)

(** The integer nearest to [q], the even one of the two at a tie. *)
Definition round_half_even (q : Q) : Z :=
  let n := Qnum q in
  let d := Zpos (Qden q) in
  let k := n / d in
  match 2 * (n mod d) ?= d with
  | Lt => k
  | Gt => k + 1
  | Eq => if Z.even k then k else k + 1
  end.

(** The weight [2 ^ exponent q] of the last of the 53 bits of the
    significand of [q]: [2 ^ 52 <= |q| / 2 ^ exponent q < 2 ^ 53]. *)
Definition exponent (q : Q) : Z :=
  let L := Z.log2 (Z.abs (Qnum q)) - Z.log2 (Zpos (Qden q)) in
  if Qle_bool (2 ^ L) (Qabs q) then L - 52 else L - 53.

(** The double nearest to [q]. *)
Definition binary64 (q : Q) : Q :=
  if Qnum q =? 0 then 0%Q
  else (inject_Z (round_half_even (q / 2 ^ exponent q)) * 2 ^ exponent q)%Q.

(** [Number(b)] for a BigInt [b] *)
Definition Number (b : Z) : Q := binary64 (inject_Z b).

(** [x / y] *)
Definition div (x y : Q) : Q := binary64 (x / y).

End JS.

(** ** The regular expression [/\/[a-f0-9]{24}/gi] and [String.prototype.replace]

    A JavaScript string is a sequence of code units.  The pattern tells
    apart the slash, the hexadecimal digits and everything else; the code
    units outside ASCII are in the third group, as the characters 128 to 255
    of [string] are. *)

Definition in_range (lo hi c : ascii) : bool :=
  ((N_of_ascii lo <=? N_of_ascii c) && (N_of_ascii c <=? N_of_ascii hi))%N.

(** The class [[a-f0-9]] under the [i] flag. *)
Definition isHexDigit (c : ascii) : bool :=
  in_range "a" "f" c || in_range "0" "9" c || in_range "A" "F" c.

(** [take_class p n s] consumes exactly [n] characters of class [p] at the
    head of [s] and returns what follows them. *)
Fixpoint take_class (p : ascii -> bool) (n : nat) (s : string) : option string :=
  match n with
  | O => Some s
  | S k =>
      match s with
      | String c r => if p c then take_class p k r else None
      | EmptyString => None
      end
  end.

(** The quantifier [{24}]. *)
Definition OBJECTID_LEN : nat := 24.

(** One attempt of the pattern at the head of [s]: a slash, then 24
    hexadecimal digits.  The result is the rest of the string after the
    match. *)
Definition match_objectid (s : string) : option string :=
  match s with
  | String c r =>
      if Ascii.eqb c "/" then take_class isHexDigit OBJECTID_LEN r else None
  | EmptyString => None
  end.

Definition inspect {A : Type} (a : A) : {b : A | a = b} := exist _ a eq_refl.

(** [s.replace(/\/[a-f0-9]{24}/gi, '/:id')]: scan from the left; where the
    pattern matches, emit the replacement and go on after the match,
    elsewhere copy one character. *)
Equations replace_objectids (s : string) : string by wf (String.length s) lt :=
  replace_objectids s with inspect (match_objectid s) := {
    | exist _ (Some rest) Hm => "/:id" +:+ replace_objectids rest
    | exist _ None _ with s => {
        | EmptyString => EmptyString
        | String c r => String c (replace_objectids r) } }.
Next Obligation.
  assert (forall n a b, take_class isHexDigit n a = Some b ->
            String.length a = (n + String.length b)%nat) as Hlen.
  { induction n as [|n IH]; intros a b; simpl.
    - intros [= ->]. reflexivity.
    - destruct a as [|c a]; [discriminate|].
      destruct (isHexDigit c); [|discriminate].
      intros H. apply IH in H. simpl. lia. }
  match goal with H : match_objectid _ = Some _ |- _ => rename H into Hmatch end.
  destruct s as [|c s']; [discriminate|].
  unfold match_objectid in Hmatch. destruct (Ascii.eqb c "/"); [|discriminate].
  apply Hlen in Hmatch. cbn [String.length]. lia.
Qed.

(** [const normalizedRoute = route.replace(...)] *)
Definition normalizedRoute (route : string) : string := replace_objectids route.

(** Whether the pattern matches somewhere in [s]. *)
Fixpoint has_objectid (s : string) : bool :=
  match s with
  | EmptyString => false
  | String c r => bool_decide (is_Some (match_objectid s)) || has_objectid r
  end.

(** Path segments, as [path.split('/')] gives them. *)
Fixpoint split_slash (cur : string) (s : string) : list string :=
  match s with
  | EmptyString => [cur]
  | String c r =>
      if Ascii.eqb c "/" then cur :: split_slash "" r
      else split_slash (cur +:+ String c "") r
  end.

Definition segments (path : string) : list string := split_slash "" path.

(** A segment that is a 24-character hexadecimal identifier. *)
Definition is_objectid (seg : string) : bool :=
  bool_decide (take_class isHexDigit OBJECTID_LEN seg = Some "").

(** What cannot continue a run of hexadecimal digits: the end of the
    string, or a character outside the class. *)
Definition starts_nonhex (s : string) : Prop :=
  match s with
  | EmptyString => True
  | String c _ => isHexDigit c = false
  end.

(** ** Express requests and responses *)

(** References to the mutable objects of the process. *)
Abbreviation ref := nat.

(** The arrow function passed to [res.on('finish', ...)]: its code is fixed,
    so the closure is the three variables it captures. *)
Record Closure : Type := closure {
  start : Z;
  req : ref;
  res : ref;
}.

#[global] Instance Closure_eq_dec : EqDecision Closure.
Proof. solve_decision. Defined.

Module Route.
(** [req.route], set by the router once a route has matched; [path] is what
    the application gave as the path of the route. *)
Record t : Type := make { path : JS.value }.
End Route.

Module Request.
Record t : Type := make {
  method : string;
  route : option Route.t;
  path : JS.value;
}.
End Request.

Module Response.
Record t : Type := make {
  statusCode : Z;
  headers : gmap string string;
  body : option string;
  (** the listeners of the ['finish'] event, in registration order *)
  finish : list Closure;
}.

(** [res.on('finish', cb)] *)
Definition on (cb : Closure) (r : t) : t :=
  make (statusCode r) (headers r) (body r) (finish r ++ [cb]).

(** [res.set(field, value)] *)
Definition set (field value : string) (r : t) : t :=
  make (statusCode r) (<[field := value]> (headers r)) (body r) (finish r).

(** [res.end(data)] *)
Definition end_ (data : string) (r : t) : t :=
  make (statusCode r) (headers r) (Some data) (finish r).
End Response.

(** ** Metric labels and samples *)

(** The object [{ method, route, status }] built by the callback. *)
Record Labels : Type := mkLabels {
  method : string;
  route : string;
  status : string;
}.

#[global] Instance Labels_eq_dec : EqDecision Labels.
Proof. solve_decision. Defined.

#[global] Instance Labels_countable : Countable Labels :=
  inj_countable'
    (fun l => (method l, route l, status l))
    (fun t => mkLabels t.1.1 t.1.2 t.2)
    (fun l => match l with mkLabels _ _ _ => eq_refl end).

(** A label value is a string, or a number (the bound of a bucket). *)
Inductive label_value : Type :=
| LStr (s : string)
| LNum (q : Q).

Definition Labels_to_map (l : Labels) : gmap string label_value :=
  {[ "method" := LStr (method l); "route" := LStr (route l);
     "status" := LStr (status l) ]}.

(** One exported series. *)
Record Sample : Type := mkSample {
  metricName : string;
  labels : gmap string label_value;
  value : Q;
}.

(** ** The state of the process *)

Record World : Type := mkWorld {
  (** the reading of [process.hrtime.bigint()], in nanoseconds *)
  hrtime : Z;
  requests : gmap nat Request.t;
  responses : gmap nat Response.t;
  (** the observations held by [httpRequestDuration], per label set *)
  histogram_hashMap : gmap Labels (list Q);
  (** the counts held by [httpRequestsTotal], per label set *)
  counter_hashMap : gmap Labels N;
}.

Definition set_responses (f : gmap nat Response.t -> gmap nat Response.t)
    (w : World) : World :=
  mkWorld (hrtime w) (requests w) (f (responses w))
          (histogram_hashMap w) (counter_hashMap w).

Definition set_histogram (f : gmap Labels (list Q) -> gmap Labels (list Q))
    (w : World) : World :=
  mkWorld (hrtime w) (requests w) (responses w)
          (f (histogram_hashMap w)) (counter_hashMap w).

Definition set_counter (f : gmap Labels N -> gmap Labels N) (w : World) : World :=
  mkWorld (hrtime w) (requests w) (responses w)
          (histogram_hashMap w) (f (counter_hashMap w)).

(** ** Computations: state, and exceptions that keep the state *)

Inductive Outcome (A : Type) : Type :=
| Return (a : A) (w : World)
| Throw (e : JS.error) (w : World).
Arguments Return {A} a w.
Arguments Throw {A} e w.

Definition M (A : Type) : Type := World -> Outcome A.

Definition ret {A : Type} (a : A) : M A := fun w => Return a w.

Definition bind {A B : Type} (m : M A) (k : A -> M B) : M B :=
  fun w =>
    match m w with
    | Return a w' => k a w'
    | Throw e w' => Throw e w'
    end.

Definition throw {A : Type} (e : JS.error) : M A := fun w => Throw e w.

Declare Scope js_scope.
Delimit Scope js_scope with js.
Notation "'let*' x ':=' m 'in' k" := (bind m (fun x => k))
  (at level 10, x name, m at level 100, k at level 200) : js_scope.
Notation "m ';;' k" := (bind m (fun _ => k))
  (at level 100, k at level 200, right associativity) : js_scope.
#[local] Open Scope js_scope.

Definition world_of {A : Type} (o : Outcome A) : World :=
  match o with
  | Return _ w => w
  | Throw _ w => w
  end.

(** [process.hrtime.bigint()] *)
Definition hrtime_bigint : M Z := fun w => Return (hrtime w) w.

(** Reading through a reference.  A reference held by running code always
    points to a live object; the error branch is there to keep the
    functions total. *)
Definition load_request (r : ref) : M Request.t :=
  fun w =>
    match requests w !! r with
    | Some rq => Return rq w
    | None => Throw (JS.TypeError "Cannot read properties of undefined") w
    end.

Definition load_response (r : ref) : M Response.t :=
  fun w =>
    match responses w !! r with
    | Some rs => Return rs w
    | None => Throw (JS.TypeError "Cannot read properties of undefined") w
    end.

Definition store_response (r : ref) (rs : Response.t) : M unit :=
  fun w => Return tt (set_responses <[r := rs]> w).

(** [res.on('finish', cb)] *)
Definition res_on_finish (r : ref) (cb : Closure) : M unit :=
  let* rs := load_response r in
  store_response r (Response.on cb rs).

(** [res.set(field, value)] *)
Definition res_set (r : ref) (field value : string) : M unit :=
  let* rs := load_response r in
  store_response r (Response.set field value rs).

(** [res.end(data)] *)
Definition res_end (r : ref) (data : string) : M unit :=
  let* rs := load_response r in
  store_response r (Response.end_ data rs).

(** [route.replace(/\/[a-f0-9]{24}/gi, '/:id')] on a JavaScript value: only
    a string has the method; a regular expression and an array have no
    property [replace], and calling what is not there throws. *)
Definition String_replace (v : JS.value) : M string :=
  match v with
  | JS.str s => ret (replace_objectids s)
  | JS.undefined =>
      throw (JS.TypeError "Cannot read properties of undefined (reading 'replace')")
  | JS.regexp _ | JS.array _ =>
      throw (JS.TypeError "route.replace is not a function")
  end.

(** ** The [prom-client] library

    The library is a dependency of the service and its code is not in the
    repository.  Its operations are modelled from what the specification says
    of the instruments and of the registry. *)

(** Modelled from the spec: [Counter.prototype.inc] of prom-client, absent
    from the repository.  "Counter Instrument: monotonically increasing
    count"; one call adds one to the count of the label set, creating the
    entry at zero when the label set is new. *)
Definition Counter_inc (l : Labels) : M unit :=
  fun w => Return tt (set_counter (fun m => <[l := (default 0 (m !! l) + 1)%N]> m) w).

(** Modelled from the spec: [Histogram.prototype.observe] of prom-client,
    absent from the repository.  "Histogram Instrument: records observed
    durations bucketed by configurable boundaries"; the state kept here is
    the sequence of the values observed for each label set, from which the
    count, the sum and the bucket counts are computed. *)
Definition Histogram_observe (l : Labels) (v : Q) : M unit :=
  fun w => Return tt (set_histogram (fun m => <[l := default [] (m !! l) ++ [v]]> m) w).

(** A registered instrument: its description, and [get], which reads its
    current series from the state of the process. *)
Record Metric : Type := mkMetric {
  name : string;
  help : string;
  type : string;
  labelNames : list string;
  get : World -> list Sample;
}.

(** What [register.metrics()] renders for one instrument. *)
Record MetricFamily : Type := mkFamily {
  family_name : string;
  family_help : string;
  family_type : string;
  family_values : list Sample;
}.

Record Registry : Type := mkRegistry {
  _metrics : list Metric;
  _defaultLabels : gmap string label_value;
  contentType : string;
}.

(** The mime type of the text exposition format. *)
Definition PROMETHEUS_CONTENT_TYPE : string :=
  "text/plain; version=0.0.4; charset=utf-8".

(** [new client.Registry()] *)
Definition new_Registry : Registry := mkRegistry [] ∅ PROMETHEUS_CONTENT_TYPE.

(** [register.setDefaultLabels(labels)] *)
Definition setDefaultLabels (ls : gmap string label_value) (r : Registry) : Registry :=
  mkRegistry (_metrics r) ls (contentType r).

(** Modelled from the spec: [Registry.prototype.registerMetric] of
    prom-client, absent from the repository.  "metric names are globally
    unique within the registry; re-registration under the same name is an
    error". *)
Definition registerMetric (m : Metric) (r : Registry) : JS.error + Registry :=
  if bool_decide (name m ∈ name <$> _metrics r)
  then inl (JS.Error ("A metric with the name " +:+ name m +:+
                      " has already been registered."))
  else inr (mkRegistry (_metrics r ++ [m]) (_defaultLabels r) (contentType r)).

(** Modelled from the spec: the constructors [new client.Histogram(config)]
    and [new client.Counter(config)] of prom-client, absent from the
    repository.  "Metric Registry: process-wide collection of named metric
    instruments"; an instrument built without the option [registers], as the
    two of this module are, is entered in the process-wide registry of the
    library, its [globalRegistry], under the rule of [registerMetric]. *)
Definition new_Metric (m : Metric) (globalRegistry : Registry) : JS.error + Registry :=
  registerMetric m globalRegistry.

Fixpoint registerMetrics (ms : list Metric) (r : Registry) : JS.error + Registry :=
  match ms with
  | [] => inr r
  | m :: ms' =>
      match registerMetric m r with
      | inl e => inl e
      | inr r' => registerMetrics ms' r'
      end
  end.

(** Modelled from the spec: the rendering of one instrument by
    [Registry.prototype.metrics] of prom-client, absent from the repository.
    "every exported metric carries a fixed service label identifying the
    owning process, set once at registry construction": the default labels
    are added to each series of each instrument; a label the series already
    has is kept. *)
Definition with_defaults (r : Registry) (s : Sample) : Sample :=
  mkSample (metricName s) (labels s ∪ _defaultLabels r) (value s).

Definition getMetricsAsArray (r : Registry) (w : World) : list MetricFamily :=
  (fun m => mkFamily (name m) (help m) (type m) (with_defaults r <$> get m w))
    <$> _metrics r.

(** What the module takes from [require('prom-client')] beyond the classes
    above, left as parameters: the instruments [collectDefaultMetrics]
    registers, and the serialisation of the collected instruments in the
    text exposition format. *)
Record PromClient : Type := mkClient {
  defaultMetrics : list Metric;
  exposition : list MetricFamily -> string;
}.

(** Modelled from the spec: [collectDefaultMetrics] of prom-client, absent
    from the repository.  The specification does not describe it; the module
    calls it as [client.collectDefaultMetrics({ register })] under the
    comment "Collect default metrics (CPU, memory, etc.)": it registers the
    default instruments of the library in the registry it is given. *)
Definition collectDefaultMetrics (client : PromClient) (register : Registry)
    : JS.error + Registry :=
  registerMetrics (defaultMetrics client) register.

(** Modelled from the spec: [Registry.prototype.metrics] of prom-client,
    absent from the repository.  "renders the full registry's current state
    in the target metrics system's text exposition format"; the promise that
    [await register.metrics()] waits for is taken to resolve with the
    rendering of the state the call found. *)
Definition Registry_metrics (client : PromClient) (register : Registry) : M string :=
  fun w => Return (exposition client (getMetricsAsArray register w)) w.

(** ** The module [metrics.js] *)

(** [buckets: [0.001, 0.005, 0.015, 0.05, 0.1, 0.2, 0.5, 1, 2, 5]] *)
Definition buckets : list Q :=
  [0.001; 0.005; 0.015; 0.05; 0.1; 0.2; 0.5; 1; 2; 5]%Q.

Definition Qsum (vs : list Q) : Q := foldr Qplus 0%Q vs.

Definition count_le (ub : Q) (vs : list Q) : nat :=
  length (filter (fun v => Qle_bool v ub = true) vs).

Definition of_nat (n : nat) : Q := inject_Z (Z.of_nat n).

(** Modelled from the spec: [Histogram.prototype.get] of prom-client, absent
    from the repository.  "Histogram: metric instrument recording
    observation counts distributed across predefined value buckets": the
    series of one label set are the cumulative buckets, the [+Inf] bucket,
    the sum and the count. *)
Definition histogram_series (nm : string) (bs : list Q) (e : Labels * list Q)
    : list Sample :=
  let ls := Labels_to_map e.1 in
  ((fun ub => mkSample (nm +:+ "_bucket") (<["le" := LNum ub]> ls)
                       (of_nat (count_le ub e.2))) <$> bs)
  ++ [ mkSample (nm +:+ "_bucket") (<["le" := LStr "+Inf"]> ls) (of_nat (length e.2));
       mkSample (nm +:+ "_sum") ls (Qsum e.2);
       mkSample (nm +:+ "_count") ls (of_nat (length e.2)) ].

(** [const httpRequestDuration = new client.Histogram({...})] *)
Definition httpRequestDuration : Metric :=
  mkMetric "http_request_duration_seconds"
           "Duration of HTTP requests in seconds"
           "histogram"
           ["method"; "route"; "status"]
           (fun w => map_to_list (histogram_hashMap w)
                       ≫= histogram_series "http_request_duration_seconds" buckets).

(** [const httpRequestsTotal = new client.Counter({...})]; its series are
    one per label set, with the count as value. *)
Definition httpRequestsTotal : Metric :=
  mkMetric "http_requests_total"
           "Total number of HTTP requests"
           "counter"
           ["method"; "route"; "status"]
           (fun w => (fun e : Labels * N =>
                        mkSample "http_requests_total" (Labels_to_map e.1)
                                 (inject_Z (Z.of_N e.2)))
                       <$> map_to_list (counter_hashMap w)).

Section Module_metrics.

(** [const client = require('prom-client')] *)
Variable client : PromClient.

(** The statements the module runs when it is loaded, in order, in a
    process whose library registry is [globalRegistry]; [inl] is an exception
    that escapes the module, [inr] has the library registry and the
    [register] the module exports. *)
Definition module_load_in (globalRegistry : Registry)
    : JS.error + (Registry * Registry) :=
  let register := new_Registry in
  let register := setDefaultLabels {[ "service" := LStr "booking-service" ]} register in
  match collectDefaultMetrics client register with
  | inl e => inl e
  | inr register =>
      match new_Metric httpRequestDuration globalRegistry with
      | inl e => inl e
      | inr globalRegistry =>
          match registerMetric httpRequestDuration register with
          | inl e => inl e
          | inr register =>
              match new_Metric httpRequestsTotal globalRegistry with
              | inl e => inl e
              | inr globalRegistry =>
                  match registerMetric httpRequestsTotal register with
                  | inl e => inl e
                  | inr register => inr (globalRegistry, register)
                  end
              end
          end
      end
  end.

(** The load of the module in a process that has built no instrument
    before: the library registry is empty. *)
Definition module_load : JS.error + Registry :=
  match module_load_in new_Registry with
  | inl e => inl e
  | inr (_, register) => inr register
  end.

(** [const durationInSeconds = Number(end - start) / 1e9] *)
Definition durationInSeconds (start end_ : Z) : Q :=
  JS.div (JS.Number (end_ - start)) 1e9%Q.

(** [req.route?.path || req.path || 'unknown'] *)
Definition route_of (rq : Request.t) : JS.value :=
  JS.or (JS.or (JS.optional (Request.route rq) Route.path) (Request.path rq))
        (JS.str "unknown").

(** The callback [() => { ... }] registered on ['finish'], run with the
    variables [start], [req] and [res] it captured. *)
Definition on_finish (cb : Closure) : M unit :=
  let* end_ := hrtime_bigint in
  let durationInSeconds := durationInSeconds (start cb) end_ in
  let* rq := load_request (req cb) in
  let route := route_of rq in
  let* normalizedRoute := String_replace route in
  let* rs := load_response (res cb) in
  let labels := mkLabels (Request.method rq) normalizedRoute
                         (JS.toString (Response.statusCode rs)) in
  Histogram_observe labels durationInSeconds;;
  Counter_inc labels.

(** [const metricsMiddleware = (req, res, next) => { ... }] *)
Definition metricsMiddleware (req res : ref) (next : M unit) : M unit :=
  let* start := hrtime_bigint in
  res_on_finish res (closure start req res);;
  next.

(** [const metricsHandler = async (req, res) => { ... }] *)
Definition metricsHandler (register : Registry) (req res : ref) : M unit :=
  res_set res "Content-Type" (contentType register);;
  let* text := Registry_metrics client register in
  res_end res text.

(** ** The running process *)

(** [res.emit('finish')]: the listeners run in registration order, and one
    that throws ends the emission.  The time the handling of an event
    itself takes is not modelled: the clock advances between the events of
    the process, with [Elapse]. *)
Fixpoint run_listeners (cbs : list Closure) : M unit :=
  match cbs with
  | [] => ret tt
  | cb :: cbs' => on_finish cb;; run_listeners cbs'
  end.

Definition emit_finish (res : ref) : M unit :=
  let* rs := load_response res in
  run_listeners (Response.finish rs).

(** What can happen in the process, one event at a time: Node.js runs each
    callback to completion before the next one starts. *)
Inductive Event : Type :=
| Elapse (ns : N)
    (** time passes *)
| Application (fq : gmap nat Request.t -> gmap nat Request.t)
              (fs : gmap nat Response.t -> gmap nat Response.t)
    (** the router and the handlers of the service work on requests and
        responses *)
| Use (req res : ref)
    (** the middleware runs for a request; what [next] does is the
        events that follow *)
| Finish (res : ref)
    (** a response completes *)
| Scrape (req res : ref)
    (** [GET /metrics] is served *).

(** One event.  An exception that escapes the handling of an event is
    dropped: the process goes on from the state the exception left, as a
    process does that handles [uncaughtException]. *)
Definition step (register : Registry) (e : Event) (w : World) : World :=
  match e with
  | Elapse ns =>
      mkWorld (hrtime w + Z.of_N ns) (requests w) (responses w)
              (histogram_hashMap w) (counter_hashMap w)
  | Application fq fs =>
      mkWorld (hrtime w) (fq (requests w)) (fs (responses w))
              (histogram_hashMap w) (counter_hashMap w)
  | Use req res => world_of (metricsMiddleware req res (ret tt) w)
  | Finish res => world_of (emit_finish res w)
  | Scrape req res => world_of (metricsHandler register req res w)
  end.

Definition run (register : Registry) (tr : list Event) (w : World) : World :=
  foldl (fun w e => step register e w) w tr.

(** The value of [http_requests_total] for a label set; a label set
    without an entry stands at zero. *)
Definition counter_value (w : World) (l : Labels) : N :=
  default 0%N (counter_hashMap w !! l).

(** The observations of [http_request_duration_seconds] for a label set. *)
Definition observations (w : World) (l : Labels) : list Q :=
  default [] (histogram_hashMap w !! l).

(** The label set the callback [cb] records under in the world [w]; there
    is none when the request or the response is gone, or when the route is
    not a string. *)
Definition labels_of (w : World) (cb : Closure) : option Labels :=
  match requests w !! req cb, responses w !! res cb with
  | Some rq, Some rs =>
      match route_of rq with
      | JS.str s =>
          Some (mkLabels (Request.method rq) (normalizedRoute s)
                         (JS.toString (Response.statusCode rs)))
      | _ => None
      end
  | _, _ => None
  end.

(** The completions in a trace. *)
Definition is_finish (e : Event) : bool :=
  match e with
  | Finish _ => true
  | _ => false
  end.

Fixpoint completions (tr : list Event) : nat :=
  match tr with
  | [] => O
  | e :: tr' => if is_finish e then S (completions tr') else completions tr'
  end.


(** Two worlds with the same requests, and the same status code and
    listeners on every response. *)
Definition same_exchanges (w0 w : World) : Prop :=
  requests w = requests w0 /\
  forall r, (fun rs => (Response.statusCode rs, Response.finish rs)) <$> responses w !! r
          = (fun rs => (Response.statusCode rs, Response.finish rs)) <$> responses w0 !! r.

(** The world after one observation of [d] and one increment, both under
    the label set [l]; nothing else differs. *)
Definition record_request (l : Labels) (d : Q) (w : World) : World :=
  mkWorld (hrtime w) (requests w) (responses w)
          (<[l := observations w l ++ [d]]> (histogram_hashMap w))
          (<[l := (counter_value w l + 1)%N]> (counter_hashMap w)).

End Module_metrics.

(** ** A small process, used to instantiate the theorems *)

Module Example.

(** A library whose default instruments are one counter of CPU seconds,
    and whose serialisation prints the names of the instruments. *)
Definition client : PromClient :=
  mkClient
    [ mkMetric "process_cpu_seconds_total"
               "Total user and system CPU time spent in seconds."
               "counter" []
               (fun w => [mkSample "process_cpu_seconds_total" ∅ 0%Q]) ]
    (fun fams => foldr (fun f acc => family_name f +:+ " " +:+ acc) "" fams).

Definition register : Registry :=
  mkRegistry (defaultMetrics client ++ [httpRequestDuration; httpRequestsTotal])
             {[ "service" := LStr "booking-service" ]}
             PROMETHEUS_CONTENT_TYPE.

(** [GET /bookings/507f1f77bcf86cd799439011], not yet routed. *)
Definition request : Request.t :=
  Request.make "GET" None (JS.str "/bookings/507f1f77bcf86cd799439011").

Definition labels_404 : Labels := mkLabels "GET" "/bookings/:id" "404".

(** The process before the middleware has seen the request. *)
Definition arriving : World :=
  mkWorld 100 {[ 1%nat := request ]}
          {[ 1%nat := Response.make 200 ∅ None [] ]} ∅ ∅.

(** The process as the response completes with status 404, 2500 ns after
    the middleware saw the request; seven such requests were counted
    before. *)
Definition completing : World :=
  mkWorld 2600 {[ 1%nat := request ]}
          {[ 1%nat := Response.make 404 ∅ None [closure 100 1 1] ]}
          ∅ {[ labels_404 := 7%N ]}.

(** Three responses about to complete under the same labels, and a scrape
    in flight. *)
Definition three_completing : World :=
  mkWorld 2600
          {[ 1%nat := request; 2%nat := request; 3%nat := request;
             4%nat := Request.make "GET" None (JS.str "/metrics") ]}
          {[ 1%nat := Response.make 404 ∅ None [closure 100 1 1];
             2%nat := Response.make 404 ∅ None [closure 300 2 2];
             3%nat := Response.make 404 ∅ None [closure 900 3 3];
             4%nat := Response.make 200 ∅ None [] ]}
          ∅ {[ labels_404 := 7%N ]}.


(** The example of the specification: two requests [GET
    /bookings/507f1f77bcf86cd799439011], one answered 200 and one 404. *)
Definition two_arriving : World :=
  mkWorld 100 {[ 1%nat := request; 2%nat := request ]}
          {[ 1%nat := Response.make 200 ∅ None [];
             2%nat := Response.make 200 ∅ None [] ]} ∅ ∅.

Definition not_found (rs : Response.t) : Response.t :=
  Response.make 404 (Response.headers rs) (Response.body rs) (Response.finish rs).

Definition two_requests : list Event :=
  [Use 1 1; Elapse 500; Use 2 2; Application id (alter not_found 2%nat);
   Elapse 2000; Finish 2; Elapse 1000; Finish 1].

End Example.

(** ** Notions used by the further properties *)

(** The decimal digit [n], as a character. *)
Definition digit (n : Z) : ascii := ascii_of_N (48 + Z.to_N n).

(** What the listeners [cbs] record when they run in the world [w], in
    order: the label set and the duration of each.  A listener whose request
    or response is gone throws, which ends the run of the listeners. *)
Fixpoint records_of (w : World) (cbs : list Closure) : list (Labels * Q) :=
  match cbs with
  | [] => []
  | cb :: cbs' =>
      match labels_of w cb with
      | Some l => (l, durationInSeconds (start cb) (hrtime w)) :: records_of w cbs'
      | None => []
      end
  end.

(** What the completion of the response [r] records in the world [w]. *)
Definition recorded_by (w : World) (r : nat) : list (Labels * Q) :=
  match responses w !! r with
  | Some rs => records_of w (Response.finish rs)
  | None => []
  end.

(** The world after the records [ps], made one after the other. *)
Definition record_all (ps : list (Labels * Q)) (w : World) : World :=
  foldl (fun w p => record_request p.1 p.2 w) w ps.

(** [res.status(code)] *)
Definition res_status (code : Z) (r : Response.t) : Response.t :=
  Response.make code (Response.headers r) (Response.body r) (Response.finish r).

(** The durations recorded under the label set [l] in a list of records. *)
Definition durations_under (l : Labels) (ps : list (Labels * Q)) : list Q :=
  snd <$> filter (fun p => p.1 = l) ps.

(** Every pending callback started no later than now, and no duration
    observed so far is negative. *)
Definition timely (w : World) : Prop :=
  (forall r rs cb, responses w !! r = Some rs -> cb ∈ Response.finish rs ->
                   start cb <= hrtime w) /\
  (forall l d, d ∈ observations w l -> (0 <= d)%Q).

(** An event that brings no callback of its own: the application may
    change requests and responses as it likes, as long as every callback
    found on a response afterwards was on some response before. *)
Definition adds_no_listener (e : Event) : Prop :=
  match e with
  | Application _ fs =>
      forall m r rs cb, fs m !! r = Some rs -> cb ∈ Response.finish rs ->
        exists r0 rs0, m !! r0 = Some rs0 /\ cb ∈ Response.finish rs0
  | _ => True
  end.

(** The label sets the completion of the response [r] records under in the
    world [w], in the order of the listeners. *)
Definition labels_by (w : World) (r : nat) : list Labels :=
  fst <$> recorded_by w r.

(** The label sets recorded along a trace that starts in [w], in order:
    those of each completion, in the world the completion finds. *)
Fixpoint labels_along (client : PromClient) (register : Registry)
    (tr : list Event) (w : World) : list Labels :=
  match tr with
  | [] => []
  | e :: tr' =>
      match e with
      | Finish r => labels_by w r
      | _ => []
      end ++ labels_along client register tr' (step client register e w)
  end.

(** How many times the label set [l] occurs in a list. *)
Definition occurrences (l : Labels) (ls : list Labels) : nat :=
  length (filter (fun l' => l' = l) ls).

(** The events after which the requests, and the status code and the
    listeners of every response, are as before: a completion, time passing,
    a scrape. *)
Definition settled (e : Event) : bool :=
  match e with
  | Finish _ => true
  | Elapse _ => true
  | Scrape _ _ => true
  | Use _ _ => false
  | Application _ _ => false
  end.

(** The histogram and the counter agree: as many observations as counted
    requests, for every label set. *)
Definition count_matches (w : World) : Prop :=
  forall l, N.of_nat (length (observations w l)) = counter_value w l.

Module Scenario.

(** A scrape arriving at a fresh process. *)
Definition scrape : Request.t := Request.make "GET" None (JS.str "/metrics").

(** [GET /bookings/42], not yet routed, arriving at a fresh process. *)
Definition booking_42 : Request.t :=
  Request.make "GET" None (JS.str "/bookings/42").

Definition arriving_42 : World :=
  mkWorld 100 {[ 1%nat := booking_42 ]}
          {[ 1%nat := Response.make 200 ∅ None [] ]} ∅ ∅.

(** The request once the router has matched it with a route built as
    [app.get(/^\/bookings\/(\d+)$/, handler)]: the path of the route is the
    regular expression. *)
Definition by_regexp : Request.t :=
  Request.make "GET" (Some (Route.make (JS.regexp "^\/bookings\/(\d+)$")))
               (JS.str "/bookings/42").

(** The request once the router has matched it with a route built as
    [app.get(['/bookings/:n', '/reservations/:n'], handler)]: the path of
    the route is the array. *)
Definition by_array : Request.t :=
  Request.make "GET"
    (Some (Route.make (JS.array [JS.str "/bookings/:n"; JS.str "/reservations/:n"])))
    (JS.str "/bookings/42").

(** The middleware sees the request, the router matches it, the handler
    answers, and 2500 ns have passed when the response is about to
    complete. *)
Definition regexp_routed : list Event :=
  [Use 1 1; Application <[1%nat := by_regexp]> id; Elapse 2500].

Definition array_routed : list Event :=
  [Use 1 1; Application <[1%nat := by_array]> (alter (res_status 201) 1%nat);
   Elapse 2500].

Definition scraping : World :=
  mkWorld 0 {[ 4%nat := scrape ]} {[ 4%nat := Response.make 200 ∅ None [] ]} ∅ ∅.

End Scenario.

(** * Properties *)

(** ** Route normalisation *)

Section Normalisation.

Lemma take_class_length p n s r :
  take_class p n s = Some r -> String.length s = (n + String.length r)%nat.
Proof.
  revert s; induction n as [|n IH]; intros s; simpl.
  - intros [= ->]; reflexivity.
  - destruct s as [|c s']; [discriminate|]. destruct (p c); [|discriminate].
    intros H. apply IH in H. simpl. lia.
Qed.

Lemma match_objectid_length s r :
  match_objectid s = Some r -> (String.length r < String.length s)%nat.
Proof.
  unfold match_objectid. destruct s as [|c s']; [discriminate|].
  destruct (Ascii.eqb c "/"); [|discriminate].
  intros H. apply take_class_length in H. cbn [String.length]. lia.
Qed.

Lemma replace_objectids_match s rest :
  match_objectid s = Some rest ->
  replace_objectids s = "/:id" +:+ replace_objectids rest.
Proof.
  intros H. funelim (replace_objectids s); congruence || discriminate.
Qed.

Lemma replace_objectids_skip c r :
  match_objectid (String c r) = None ->
  replace_objectids (String c r) = String c (replace_objectids r).
Proof.
  intros H. funelim (replace_objectids (String c r)); congruence.
Qed.

(** Induction along the scan: the three ways one step of the replacement
    can go. *)
Lemma replace_objectids_scan (P : string -> string -> Prop) :
  P "" "" ->
  (forall s rest, match_objectid s = Some rest ->
     P rest (replace_objectids rest) ->
     P s ("/:id" +:+ replace_objectids rest)) ->
  (forall c r, match_objectid (String c r) = None ->
     P r (replace_objectids r) ->
     P (String c r) (String c (replace_objectids r))) ->
  forall s, P s (replace_objectids s).
Proof.
  intros Hnil Hm Hs s.
  induction s as [s IH] using (induction_ltof1 _ String.length).
  destruct (match_objectid s) as [rest|] eqn:E.
  - rewrite (replace_objectids_match _ _ E). apply Hm; [assumption|].
    apply IH. unfold ltof. by apply match_objectid_length.
  - destruct s as [|c r]; [exact Hnil|].
    rewrite (replace_objectids_skip _ _ E). apply Hs; [assumption|].
    apply IH. unfold ltof. simpl. lia.
Qed.

Lemma match_objectid_nonslash c r :
  c <> "/"%char -> match_objectid (String c r) = None.
Proof.
  intros H. unfold match_objectid.
  destruct (Ascii.eqb_spec c "/"); [contradiction | reflexivity].
Qed.

Lemma match_objectid_shape s rest :
  match_objectid s = Some rest ->
  exists r, s = String "/" r /\ take_class isHexDigit OBJECTID_LEN r = Some rest.
Proof.
  unfold match_objectid. destruct s as [|c r]; [discriminate|].
  destruct (Ascii.eqb_spec c "/") as [->|]; [eauto | discriminate].
Qed.

Lemma take_class_app p n a b :
  match b with EmptyString => True | String c _ => p c = false end ->
  take_class p n (a +:+ b) =
    match n with
    | O => Some (a +:+ b)
    | S _ => (fun r => r +:+ b) <$> take_class p n a
    end.
Proof.
  intros Hb. revert a. induction n as [|n IH]; intros a; [reflexivity|].
  destruct a as [|c a]; simpl.
  - destruct b as [|c b]; [reflexivity|]. by rewrite Hb.
  - destruct (p c); [|reflexivity]. rewrite IH. destruct n; reflexivity.
Qed.

(** A match that starts in [a] ends in [a] when [b] cannot continue a run
    of digits. *)
Lemma match_objectid_app c a b :
  starts_nonhex b ->
  match_objectid (String c a +:+ b) =
    (fun r => r +:+ b) <$> match_objectid (String c a).
Proof.
  intros Hb. unfold match_objectid. cbn [String.append].
  destruct (Ascii.eqb c "/"); [|reflexivity].
  rewrite take_class_app by exact Hb. reflexivity.
Qed.

Lemma replace_objectids_app a b :
  starts_nonhex b ->
  replace_objectids (a +:+ b) = replace_objectids a +:+ replace_objectids b.
Proof.
  intros Hb.
  apply (replace_objectids_scan
    (fun a out => replace_objectids (a +:+ b) = out +:+ replace_objectids b)).
  - reflexivity.
  - intros s rest Hm IH. destruct s as [|c s]; [discriminate Hm|].
    rewrite (replace_objectids_match (String c s +:+ b) (rest +:+ b)).
    + rewrite IH. reflexivity.
    + rewrite match_objectid_app by exact Hb. by rewrite Hm.
  - intros c r Hm IH. cbn [String.append].
    rewrite replace_objectids_skip; [by rewrite IH|].
    change (String c (r +:+ b)) with (String c r +:+ b).
    rewrite match_objectid_app by exact Hb. by rewrite Hm.
Qed.

Lemma take_class_exact p n seg post :
  take_class p n seg = Some "" -> take_class p n (seg +:+ post) = Some post.
Proof.
  revert seg. induction n as [|n IH]; intros seg; simpl.
  - by intros [= ->].
  - destruct seg as [|c seg]; [discriminate|]. simpl.
    destruct (p c); [apply IH | discriminate].
Qed.

Lemma replace_objectids_objectid seg post :
  is_objectid seg = true ->
  replace_objectids ("/" +:+ seg +:+ post) = "/:id" +:+ replace_objectids post.
Proof.
  intros H. apply bool_decide_eq_true_1 in H.
  apply replace_objectids_match. unfold match_objectid. cbn [String.append].
  change (Ascii.eqb "/" "/") with true. cbv iota.
  by apply take_class_exact.
Qed.

Lemma replace_objectids_length s :
  (String.length (replace_objectids s) <= String.length s)%nat.
Proof.
  apply (replace_objectids_scan
    (fun s out => (String.length out <= String.length s)%nat)).
  - reflexivity.
  - intros s0 rest Hm IH.
    apply match_objectid_shape in Hm as (r & -> & Hm).
    apply take_class_length in Hm. unfold OBJECTID_LEN in Hm.
    cbn [String.append String.length] in *. lia.
  - intros c r _ IH. simpl. lia.
Qed.

Lemma has_objectid_shrinks s :
  has_objectid s = true ->
  (String.length (replace_objectids s) < String.length s)%nat.
Proof.
  apply (replace_objectids_scan
    (fun s out => has_objectid s = true ->
                  (String.length out < String.length s)%nat)).
  - discriminate.
  - intros s0 rest Hm _ _. pose proof (replace_objectids_length rest) as Hle.
    apply match_objectid_shape in Hm as (r & -> & Hm).
    apply take_class_length in Hm. unfold OBJECTID_LEN in Hm.
    cbn [String.append String.length] in *. lia.
  - intros c r Hm IH Hhas. cbn [has_objectid] in Hhas. rewrite Hm in Hhas.
    rewrite bool_decide_eq_false_2 in Hhas by (intros [? ?]; discriminate).
    simpl in Hhas. apply IH in Hhas. simpl. lia.
Qed.

Lemma no_objectid_verbatim s :
  has_objectid s = false -> replace_objectids s = s.
Proof.
  induction s as [|c r IH]; [reflexivity|].
  cbn [has_objectid]. intros H. apply orb_false_iff in H as [Hm Hr].
  apply bool_decide_eq_false_1 in Hm.
  rewrite replace_objectids_skip.
  - by rewrite IH.
  - destruct (match_objectid (String c r)) eqn:E; [|reflexivity].
    exfalso. apply Hm. eauto.
Qed.

(** The replacement keeps the first character: a match starts with the
    slash the placeholder starts with. *)
Lemma replace_objectids_head c r :
  exists r', replace_objectids (String c r) = String c r'.
Proof.
  destruct (match_objectid (String c r)) as [rest|] eqn:E.
  - rewrite (replace_objectids_match _ _ E).
    apply match_objectid_shape in E as (r0 & [= -> ->] & _).
    eexists. reflexivity.
  - rewrite replace_objectids_skip by exact E. eauto.
Qed.

(** Where 24 digits could not be read before, they cannot be read after:
    the replacement leaves a run of digits as it is and ends it with the
    character that ended it. *)
Lemma take_class_replace_None n r :
  take_class isHexDigit n r = None ->
  take_class isHexDigit n (replace_objectids r) = None.
Proof.
  revert r. induction n as [|n IH]; intros r; simpl; [discriminate|].
  destruct r as [|c r]; [reflexivity|].
  destruct (isHexDigit c) eqn:Hc.
  - intros H. rewrite replace_objectids_skip.
    + rewrite Hc. by apply IH.
    + apply match_objectid_nonslash. intros ->. discriminate Hc.
  - intros _. destruct (replace_objectids_head c r) as [r' ->]. by rewrite Hc.
Qed.

Lemma replace_objectids_idempotent s :
  replace_objectids (replace_objectids s) = replace_objectids s.
Proof.
  apply (replace_objectids_scan (fun _ out => replace_objectids out = out)).
  - reflexivity.
  - intros _ rest _ IH. cbn [String.append].
    rewrite replace_objectids_skip by reflexivity.
    rewrite !replace_objectids_skip by (apply match_objectid_nonslash; discriminate).
    by rewrite IH.
  - intros c r Hm IH. rewrite replace_objectids_skip; [by rewrite IH|].
    unfold match_objectid in *. destruct (Ascii.eqb c "/"); [|reflexivity].
    by apply take_class_replace_None.
Qed.

End Normalisation.

(** C2, as amended.  The pattern is not anchored at the end of a segment:
    every slash followed by 24 hexadecimal digits (in either case) is
    replaced by [/:id], whatever follows the digits.  So a segment that is a
    24-digit identifier is replaced together with its slash; a path is
    recorded verbatim exactly when no slash in it is followed by 24
    hexadecimal digits; and [/bookings/507f1f77bcf86cd799439011] becomes
    [/bookings/:id]. *)
Theorem normalizedRoute_replaces_every_run (pre seg post p : string) :
  (is_objectid seg = true ->
   normalizedRoute (pre +:+ "/" +:+ seg +:+ post) =
     normalizedRoute pre +:+ "/:id" +:+ normalizedRoute post) /\
  (has_objectid p = false <-> normalizedRoute p = p) /\
  normalizedRoute "/bookings/507f1f77bcf86cd799439011" = "/bookings/:id".
Proof.
  unfold normalizedRoute. split; [|split].
  - intros Hseg. rewrite replace_objectids_app by reflexivity.
    by rewrite replace_objectids_objectid.
  - split; [apply no_objectid_verbatim|].
    intros Heq. destruct (has_objectid p) eqn:E; [|reflexivity].
    apply has_objectid_shrinks in E. rewrite Heq in E. lia.
  - reflexivity.
Qed.

Lemma normalizedRoute_replaces_every_run_witness :
  is_objectid "507f1f77bcf86cd799439011" = true /\
  normalizedRoute ("/api/bookings" +:+ "/" +:+ "507f1f77bcf86cd799439011" +:+ "/tickets") =
    normalizedRoute "/api/bookings" +:+ "/:id" +:+ normalizedRoute "/tickets".
Proof.
  split; [reflexivity|].
  apply (proj1 (normalizedRoute_replaces_every_run
                  "/api/bookings" "507f1f77bcf86cd799439011" "/tickets" "")).
  reflexivity.
Defined.

(** C2 as stated fails: the path below has no segment that is a
    24-character hexadecimal identifier (its last segment has 25
    characters), and it is not recorded verbatim. *)
Lemma normalizedRoute_cuts_longer_segment :
  forallb (fun seg => negb (is_objectid seg))
          (segments "/bookings/507f1f77bcf86cd799439011a") = true /\
  normalizedRoute "/bookings/507f1f77bcf86cd799439011a" = "/bookings/:ida" /\
  normalizedRoute "/bookings/507f1f77bcf86cd799439011a"
    <> "/bookings/507f1f77bcf86cd799439011a".
Proof.
  assert (normalizedRoute "/bookings/507f1f77bcf86cd799439011a" = "/bookings/:ida")
    as E by (vm_compute; reflexivity).
  split; [|split].
  - vm_compute. reflexivity.
  - exact E.
  - rewrite E. discriminate.
Qed.

(** C9.  Normalising twice is normalising once, for every string: the
    placeholder [/:id] has a colon after its slash, so no match starts in
    it, and the digits left between two replacements are as few as before. *)
Theorem normalizedRoute_idempotent (s : string) :
  normalizedRoute (normalizedRoute s) = normalizedRoute s.
Proof. apply replace_objectids_idempotent. Qed.

(** ** The route label *)

(** C3.  The label before normalisation is the matched route pattern when
    there is one, else the raw path of the request when there is one, else
    the string [unknown]; "there is one" is JavaScript's truthiness: a
    property that is present and is not the empty string. *)
Theorem route_of_fallback (rq : Request.t) :
  let pattern := JS.optional (Request.route rq) Route.path in
  (JS.truthy pattern = true -> route_of rq = pattern) /\
  (JS.truthy pattern = false -> JS.truthy (Request.path rq) = true ->
   route_of rq = Request.path rq) /\
  (JS.truthy pattern = false -> JS.truthy (Request.path rq) = false ->
   route_of rq = JS.str "unknown") /\
  (forall r p, Request.route rq = Some r -> Route.path r = JS.str p -> p <> "" ->
   route_of rq = JS.str p) /\
  (forall p, Request.route rq = None -> Request.path rq = JS.str p -> p <> "" ->
   route_of rq = JS.str p) /\
  (Request.route rq = None -> Request.path rq = JS.undefined ->
   route_of rq = JS.str "unknown").
Proof.
  cbn zeta. unfold route_of, JS.or.
  assert (forall p, p <> "" -> negb (String.eqb p "") = true) as Hstr.
  { intros p Hp. apply String.eqb_neq in Hp. by rewrite Hp. }
  split; [|split; [|split; [|split; [|split]]]].
  - intros H. by rewrite !H.
  - intros H1 H2. by rewrite H1, H2.
  - intros H1 H2. by rewrite H1, H2.
  - intros r p Hr Hpath Hp. rewrite Hr. cbn [JS.optional]. rewrite Hpath.
    do 2 (cbn [JS.truthy]; try rewrite (Hstr p Hp)). reflexivity.
  - intros p Hr Hpath Hp. rewrite Hr, Hpath. cbn [JS.optional].
    do 2 (cbn [JS.truthy]; try rewrite (Hstr p Hp)). reflexivity.
  - intros Hr Hpath. by rewrite Hr, Hpath.
Qed.

(** ** The recorder *)

Section Recorder.

Lemma bind_Return {A B : Type} (m : M A) (k : A -> M B) w a w' :
  m w = Return a w' -> bind m k w = k a w'.
Proof. unfold bind. by intros ->. Qed.

(** The chain of [||] ends in a string that is not empty: its value is
    truthy. *)
Lemma route_of_truthy rq : JS.truthy (route_of rq) = true.
Proof.
  unfold route_of, JS.or.
  destruct (JS.truthy (JS.optional (Request.route rq) Route.path)) eqn:E1;
    [by rewrite E1|].
  destruct (JS.truthy (Request.path rq)) eqn:E2; [by rewrite E2 | reflexivity].
Qed.

Lemma route_of_nonempty rq s : route_of rq = JS.str s -> s <> "".
Proof.
  intros H ->. pose proof (route_of_truthy rq) as Ht. rewrite H in Ht.
  discriminate Ht.
Qed.

Lemma counter_value_record l d w l' :
  counter_value (record_request l d w) l' =
    (counter_value w l' + if decide (l' = l) then 1 else 0)%N.
Proof.
  unfold counter_value, record_request. cbn [counter_hashMap].
  destruct (decide (l' = l)) as [->|Hne].
  - by rewrite lookup_insert_eq.
  - rewrite lookup_insert_ne by done. unfold counter_value. lia.
Qed.

Lemma observations_record l d w l' :
  observations (record_request l d w) l' =
    observations w l' ++ if decide (l' = l) then [d] else [].
Proof.
  unfold observations, record_request. cbn [histogram_hashMap].
  destruct (decide (l' = l)) as [->|Hne].
  - by rewrite lookup_insert_eq.
  - rewrite lookup_insert_ne by done. by rewrite app_nil_r.
Qed.

(** The callback, run where the request and the response it captured are
    live and the route is a string: it returns, having recorded once under
    one label set. *)
Lemma on_finish_records w cb rq rs s :
  requests w !! req cb = Some rq ->
  responses w !! res cb = Some rs ->
  route_of rq = JS.str s ->
  on_finish cb w =
    Return tt (record_request
                 (mkLabels (Request.method rq) (normalizedRoute s)
                           (JS.toString (Response.statusCode rs)))
                 (durationInSeconds (start cb) (hrtime w)) w).
Proof.
  intros Hrq Hrs Hs.
  unfold on_finish, bind, hrtime_bigint, load_request, load_response.
  rewrite Hrq, Hs. cbn [String_replace ret]. rewrite Hrs.
  reflexivity.
Qed.

(** The callback, run where the route is not a string: [route.replace] is
    not there to be called, and the callback throws before it has read the
    response or written to the registry. *)
Lemma on_finish_not_a_string w cb rq :
  requests w !! req cb = Some rq ->
  (forall s, route_of rq <> JS.str s) ->
  on_finish cb w = Throw (JS.TypeError "route.replace is not a function") w.
Proof.
  intros Hrq Hs. pose proof (route_of_truthy rq) as Ht.
  unfold on_finish, bind, hrtime_bigint, load_request.
  rewrite Hrq. destruct (route_of rq) as [|s|re|items].
  - discriminate Ht.
  - by destruct (Hs s).
  - reflexivity.
  - reflexivity.
Qed.

(** The callback records under the label set [labels_of] gives, and
    throws before it has written anything when there is none. *)
Lemma on_finish_live w cb l :
  labels_of w cb = Some l ->
  on_finish cb w =
    Return tt (record_request l (durationInSeconds (start cb) (hrtime w)) w).
Proof.
  intros Hl. unfold labels_of in Hl.
  destruct (requests w !! req cb) as [rq|] eqn:Hrq; [|discriminate].
  destruct (responses w !! res cb) as [rs|] eqn:Hrs; [|discriminate].
  destruct (route_of rq) as [|s|re|items] eqn:Hs; try discriminate.
  injection Hl as <-. by apply on_finish_records.
Qed.

Lemma on_finish_gone w cb :
  labels_of w cb = None -> exists e, on_finish cb w = Throw e w.
Proof.
  intros Hl. unfold labels_of in Hl.
  destruct (requests w !! req cb) as [rq|] eqn:Hrq.
  - destruct (route_of rq) as [|s|re|items] eqn:Hs.
    + rewrite (on_finish_not_a_string w cb rq Hrq); [eauto|]. congruence.
    + destruct (responses w !! res cb) as [rs|] eqn:Hrs; [discriminate|].
      unfold on_finish, bind, hrtime_bigint, load_request, load_response.
      rewrite Hrq, Hs. cbn [String_replace ret]. rewrite Hrs. eauto.
    + rewrite (on_finish_not_a_string w cb rq Hrq); [eauto|]. congruence.
    + rewrite (on_finish_not_a_string w cb rq Hrq); [eauto|]. congruence.
  - unfold on_finish, bind, hrtime_bigint, load_request. rewrite Hrq. eauto.
Qed.

(** The callback either throws before it has written anything, or records
    once. *)
Lemma on_finish_cases cb w :
  (exists e, on_finish cb w = Throw e w) \/
  (exists l d, on_finish cb w = Return tt (record_request l d w)).
Proof.
  destruct (labels_of w cb) as [l|] eqn:Hl.
  - right. rewrite (on_finish_live w cb l Hl). eauto.
  - left. by apply on_finish_gone.
Qed.

Lemma emit_finish_single w r rs cb :
  responses w !! r = Some rs ->
  Response.finish rs = [cb] ->
  emit_finish r w = bind (on_finish cb) (fun _ => ret tt) w.
Proof.
  intros Hrs Hcb. unfold emit_finish, load_response, bind at 1.
  rewrite Hrs, Hcb. reflexivity.
Qed.

(** The middleware, run on a live response: one listener is appended to
    the response and [next] takes over. *)
Lemma metricsMiddleware_registers w rq_ref rs_ref rs next :
  responses w !! rs_ref = Some rs ->
  metricsMiddleware rq_ref rs_ref next w =
    next (set_responses
            <[rs_ref := Response.on (closure (hrtime w) rq_ref rs_ref) rs]> w).
Proof.
  intros Hrs.
  unfold metricsMiddleware, res_on_finish, bind, hrtime_bigint, load_response,
    store_response.
  by rewrite Hrs.
Qed.

(** The example of the specification, run. *)
Example two_requests_counted :
  let w := run Example.client Example.register Example.two_requests
               Example.two_arriving in
  map_to_list (counter_hashMap w)
    ≡ₚ [ (mkLabels "GET" "/bookings/:id" "200", 1%N);
         (mkLabels "GET" "/bookings/:id" "404", 1%N) ] /\
  observations w (mkLabels "GET" "/bookings/:id" "200") = [durationInSeconds 100 3600] /\
  observations w (mkLabels "GET" "/bookings/:id" "404") = [durationInSeconds 600 2600].
Proof.
  cbn zeta. split; [|split]; [|vm_compute; reflexivity..].
  match goal with
  | |- ?l ≡ₚ _ => let v := eval vm_compute in l in change l with v
  end.
  first [reflexivity | apply Permutation_swap].
Qed.

End Recorder.

(** ** Numbers *)

Section Numbers.

Lemma pow2_pos e : (0 < 2 ^ e)%Q.
Proof. by apply Qpower_0_lt. Qed.

(** Rounding to an integer moves a number by a half at most. *)
Lemma round_half_even_error q :
  (Qabs (inject_Z (JS.round_half_even q) - q) <= 1 # 2)%Q.
Proof.
  destruct q as [n d]. unfold JS.round_half_even. cbn [Qnum Qden].
  pose proof (Z.div_mod n (Zpos d) ltac:(lia)) as Hdm.
  pose proof (Z.mod_pos_bound n (Zpos d) ltac:(lia)) as Hr.
  set (k := n / Zpos d) in *. set (r := n mod Zpos d) in *.
  apply Qabs_Qle_condition.
  assert (forall m : Z, 2 * (Zpos d * m - n) <= Zpos d ->
            - (Zpos d) <= 2 * (Zpos d * m - n) ->
            (- (1 # 2) <= inject_Z m - (n # d) <= 1 # 2)%Q) as Hcrit.
  { intros m H1 H2. unfold Qle, Qminus, Qplus, Qopp, inject_Z. cbn. lia. }
  destruct (Z.compare_spec (2 * r) (Zpos d)); [destruct (Z.even k)| |];
    apply Hcrit; lia.
Qed.

Lemma round_half_even_nonneg q : (0 <= q)%Q -> 0 <= JS.round_half_even q.
Proof.
  destruct q as [n d]. unfold Qle, JS.round_half_even. cbn [Qnum Qden]. intros Hn.
  assert (0 <= n / Zpos d) by (apply Z.div_pos; lia).
  destruct (_ ?= _); [destruct (Z.even _)| |]; lia.
Qed.

Lemma round_half_even_exact q k :
  (q == inject_Z k)%Q -> JS.round_half_even q = k.
Proof.
  destruct q as [n d]. unfold Qeq, JS.round_half_even. cbn [Qnum Qden inject_Z].
  intros Hn. assert (n = k * Zpos d) as -> by lia.
  rewrite Z.div_mul, Z.mod_mul by lia. reflexivity.
Qed.

Lemma binary64_nonneg q : (0 <= q)%Q -> (0 <= JS.binary64 q)%Q.
Proof.
  intros Hq. unfold JS.binary64. destruct (Qnum q =? 0); [apply Qle_refl|].
  apply Qmult_le_0_compat.
  - change 0%Q with (inject_Z 0). rewrite <- Zle_Qle. apply round_half_even_nonneg.
    apply Qle_shift_div_l; [apply pow2_pos|]. by rewrite Qmult_0_l.
  - apply Qlt_le_weak, pow2_pos.
Qed.

Lemma log2_bounds (q : Q) :
  (0 < q)%Q ->
  (2 ^ (Z.log2 (Z.abs (Qnum q)) - Z.log2 (Zpos (Qden q)) - 1) <= q)%Q.
Proof.
  destruct q as [a b]. unfold Qlt. cbn [Qnum Qden]. rewrite Z.mul_1_r. cbn [Z.mul].
  intros Ha. rewrite Z.abs_eq by lia.
  pose proof (Z.log2_spec a Ha) as [Hla _].
  pose proof (Z.log2_spec (Zpos b) ltac:(lia)) as [_ Hlb].
  pose proof (Z.log2_nonneg a) as Hna. pose proof (Z.log2_nonneg (Zpos b)) as Hnb.
  replace (Z.log2 a - Z.log2 (Zpos b) - 1)
    with (Z.log2 a - Z.succ (Z.log2 (Zpos b))) by lia.
  rewrite Qpower_minus by done.
  change 2%Q with (inject_Z 2). rewrite <- !Zpower_Qpower by lia.
  set (x := 2 ^ Z.log2 a) in *. set (y := 2 ^ Z.succ (Z.log2 (Zpos b))) in *.
  apply Qle_shift_div_r.
  - change 0%Q with (inject_Z 0). rewrite <- Zlt_Qlt. lia.
  - unfold Qle, Qmult, inject_Z. cbn [Qnum Qden].
    rewrite Z.mul_1_r. change (Z.pos (1 * b)) with (Zpos b). nia.
Qed.

(** The significand has its 53 bits: it is 2^52 at least. *)
Lemma exponent_le q : (0 < q)%Q -> (2 ^ (JS.exponent q + 52) <= q)%Q.
Proof.
  intros Hq. unfold JS.exponent. cbv zeta.
  set (L := Z.log2 _ - Z.log2 _).
  destruct (Qle_bool (2 ^ L) (Qabs q)) eqn:E.
  - apply Qle_bool_iff in E. rewrite Qabs_pos in E by by apply Qlt_le_weak.
    by replace (L - 52 + 52) with L by lia.
  - replace (L - 53 + 52) with (L - 1) by lia. by apply log2_bounds.
Qed.

Lemma log2_bounds_above (q : Q) :
  (0 < q)%Q ->
  (q < 2 ^ (Z.log2 (Z.abs (Qnum q)) - Z.log2 (Zpos (Qden q)) + 1))%Q.
Proof.
  destruct q as [a b]. unfold Qlt at 1. cbn [Qnum Qden]. rewrite Z.mul_1_r. cbn [Z.mul].
  intros Ha. rewrite Z.abs_eq by lia.
  pose proof (Z.log2_spec a Ha) as [_ Hla].
  pose proof (Z.log2_spec (Zpos b) ltac:(lia)) as [Hlb _].
  pose proof (Z.log2_nonneg a) as Hna. pose proof (Z.log2_nonneg (Zpos b)) as Hnb.
  replace (Z.log2 a - Z.log2 (Zpos b) + 1)
    with (Z.succ (Z.log2 a) - Z.log2 (Zpos b)) by lia.
  rewrite Qpower_minus by done.
  change 2%Q with (inject_Z 2). rewrite <- !Zpower_Qpower by lia.
  set (x := 2 ^ Z.succ (Z.log2 a)) in *. set (y := 2 ^ Z.log2 (Zpos b)) in *.
  apply Qlt_shift_div_l.
  - change 0%Q with (inject_Z 0). rewrite <- Zlt_Qlt. lia.
  - unfold Qlt, Qmult, inject_Z. cbn [Qnum Qden].
    rewrite Z.mul_1_r, Pos.mul_1_r. nia.
Qed.

(** The significand has no more than its 53 bits. *)
Lemma exponent_lt q : (0 < q)%Q -> (q < 2 ^ (JS.exponent q + 53))%Q.
Proof.
  intros Hq. unfold JS.exponent. cbv zeta.
  set (L := Z.log2 _ - Z.log2 _).
  destruct (Qle_bool (2 ^ L) (Qabs q)) eqn:E.
  - replace (L - 52 + 53) with (L + 1) by lia. by apply log2_bounds_above.
  - replace (L - 53 + 53) with L by lia.
    apply Qnot_le_lt. intros Hle.
    assert (Qle_bool (2 ^ L) (Qabs q) = true) as E'; [|congruence].
    apply Qle_bool_iff. by rewrite Qabs_pos by by apply Qlt_le_weak.
Qed.

(** No integer is nearer to [q] than the one it is rounded to. *)
Lemma round_half_even_nearest q k :
  (Qabs (inject_Z (JS.round_half_even q) - q) <= Qabs (inject_Z k - q))%Q.
Proof.
  pose proof (round_half_even_error q) as Hm.
  set (m := JS.round_half_even q) in *.
  destruct (Z.eq_dec k m) as [->|Hne]; [apply Qle_refl|].
  apply Qle_trans with (1 # 2)%Q; [exact Hm|].
  apply Qabs_Qle_condition in Hm as [Hlo Hhi].
  destruct (Z.le_gt_cases (m + 1) k) as [Hk|Hk].
  - apply Qle_trans with (inject_Z k - q)%Q; [|apply Qle_Qabs].
    rewrite Zle_Qle, inject_Z_plus in Hk. change (inject_Z 1) with 1%Q in Hk. lra.
  - assert (k + 1 <= m) as Hk' by lia.
    rewrite <- (Qabs_opp (inject_Z k - q)).
    apply Qle_trans with (- (inject_Z k - q))%Q; [|apply Qle_Qabs].
    rewrite Zle_Qle, inject_Z_plus in Hk'. change (inject_Z 1) with 1%Q in Hk'. lra.
Qed.

Lemma binary64_unfold q :
  Qnum q <> 0 ->
  JS.binary64 q =
    (inject_Z (JS.round_half_even (q / 2 ^ JS.exponent q)) * 2 ^ JS.exponent q)%Q.
Proof.
  intros Hq. unfold JS.binary64. apply Z.eqb_neq in Hq. by rewrite Hq.
Qed.

(** One rounding moves a number by 2^-53 of itself at most. *)
Lemma binary64_error q :
  (0 <= q)%Q -> (Qabs (JS.binary64 q - q) <= q * (1 # 2 ^ 53))%Q.
Proof.
  intros Hq. destruct (Z.eq_dec (Qnum q) 0) as [Hz|Hnz].
  - unfold JS.binary64. rewrite Hz. cbn [Z.eqb].
    assert (q == 0)%Q as -> by (unfold Qeq; rewrite Hz; reflexivity).
    discriminate.
  - assert (0 < q)%Q as Hpos.
    { unfold Qlt, Qle in *. cbn in *. lia. }
    rewrite binary64_unfold by exact Hnz.
    set (e := JS.exponent q). pose proof (pow2_pos e) as Hp.
    pose proof (exponent_le q Hpos) as He. fold e in He.
    rewrite Qpower_plus in He by done.
    set (p := (2 ^ e)%Q) in *.
    pose proof (round_half_even_error (q / p)) as Hm.
    set (m := inject_Z (JS.round_half_even (q / p))) in *.
    assert (m * p - q == (m - q / p) * p)%Q as ->.
    { field. intros H0. rewrite H0 in Hp. by apply Qlt_irrefl in Hp. }
    rewrite Qabs_Qmult, (Qabs_pos p) by by apply Qlt_le_weak.
    apply Qle_trans with ((1 # 2) * p)%Q.
    + apply Qmult_le_compat_r; [exact Hm | by apply Qlt_le_weak].
    + apply Qle_trans with ((p * 2 ^ 52) * (1 # 2 ^ 53))%Q.
      * apply Qle_lteq. right.
        change (2 ^ 52)%Q with (inject_Z (2 ^ 52)).
        unfold Qeq, Qmult, inject_Z. cbn [Qnum Qden].
        rewrite !Pos2Z.inj_mul. change (Z.pos (2 ^ 53)) with (2 * 2 ^ 52). lia.
      * apply Qmult_le_compat_r; [exact He | done].
Qed.

(** What [binary64] yields for a positive number is a double: an integer
    of 53 bits, or 2^53, times a power of two; and no multiple of that power
    of two is nearer to the number. *)
Lemma binary64_is_double q :
  (0 < q)%Q ->
  let e := JS.exponent q in
  let m := JS.round_half_even (q / 2 ^ e) in
  JS.binary64 q = (inject_Z m * 2 ^ e)%Q /\
  2 ^ 52 <= m <= 2 ^ 53 /\
  forall k : Z,
    (Qabs (inject_Z m * 2 ^ e - q) <= Qabs (inject_Z k * 2 ^ e - q))%Q.
Proof.
  intros Hq. cbn zeta. set (e := JS.exponent q).
  pose proof (pow2_pos e) as Hp.
  pose proof (exponent_le q Hq) as Hlo. pose proof (exponent_lt q Hq) as Hhi.
  fold e in Hlo, Hhi. rewrite Qpower_plus in Hlo, Hhi by done.
  set (p := (2 ^ e)%Q) in *.
  assert (~ p == 0)%Q as Hp0.
  { intros H0. rewrite H0 in Hp. by apply Qlt_irrefl in Hp. }
  assert (2 ^ 52 <= q / p)%Q as Hslo.
  { apply Qle_shift_div_l; [exact Hp|]. by rewrite Qmult_comm. }
  assert (q / p < 2 ^ 53)%Q as Hshi.
  { apply Qlt_shift_div_r; [exact Hp|]. by rewrite Qmult_comm. }
  pose proof (round_half_even_error (q / p)) as Hm.
  set (m := JS.round_half_even (q / p)) in *.
  split; [|split].
  - apply binary64_unfold. intros Hz. unfold Qlt in Hq. rewrite Hz in Hq.
    cbn in Hq. lia.
  - apply Qabs_Qle_condition in Hm as [Hm1 Hm2].
    change (2 ^ 52)%Q with (inject_Z (2 ^ 52)) in Hslo.
    change (2 ^ 53)%Q with (inject_Z (2 ^ 53)) in Hshi.
    split.
    + destruct (Z.le_gt_cases (2 ^ 52) m) as [H|H]; [exact H|]. exfalso.
      assert (m + 1 <= 2 ^ 52) as H' by lia.
      rewrite Zle_Qle, inject_Z_plus in H'. change (inject_Z 1) with 1%Q in H'.
      lra.
    + destruct (Z.le_gt_cases m (2 ^ 53)) as [H|H]; [exact H|]. exfalso.
      assert (2 ^ 53 + 1 <= m) as H' by lia.
      rewrite Zle_Qle, inject_Z_plus in H'. change (inject_Z 1) with 1%Q in H'.
      lra.
  - intros k.
    assert (forall z, inject_Z z * p - q == (inject_Z z - q / p) * p)%Q as Hz
      by (intros z; field; exact Hp0).
    rewrite !Hz, !Qabs_Qmult.
    apply Qmult_le_compat_r; [apply round_half_even_nearest | apply Qabs_nonneg].
Qed.

(** An integer below 2^53 is a double. *)
Lemma binary64_exact n :
  0 <= n < 2 ^ 53 -> (JS.binary64 (inject_Z n) == inject_Z n)%Q.
Proof.
  intros [H0 Hn]. destruct (Z.eq_dec n 0) as [->|Hnz]; [reflexivity|].
  rewrite binary64_unfold by exact Hnz.
  assert (JS.exponent (inject_Z n) = Z.log2 n - 52) as ->.
  { unfold JS.exponent. cbn [Qnum Qden inject_Z]. change (Z.log2 1) with 0.
    rewrite Z.sub_0_r, Z.abs_eq by lia.
    assert (Qle_bool (2 ^ Z.log2 n) (Qabs (inject_Z n)) = true) as ->;
      [|reflexivity].
    apply Qle_bool_iff. rewrite Qabs_pos by (unfold Qle; cbn; lia).
    change 2%Q with (inject_Z 2). rewrite <- Zpower_Qpower by apply Z.log2_nonneg.
    rewrite <- Zle_Qle. apply Z.log2_spec. lia. }
  assert (Z.log2 n < 53) as Hlog by (apply Z.log2_lt_pow2; lia).
  set (k := 52 - Z.log2 n).
  replace (Z.log2 n - 52) with (- k) by lia.
  assert (2 ^ (- k) == / inject_Z (2 ^ k))%Q as Hp.
  { rewrite Qpower_opp. change 2%Q with (inject_Z 2).
    by rewrite <- Zpower_Qpower by lia. }
  assert (0 < inject_Z (2 ^ k))%Q as Hpos.
  { change 0%Q with (inject_Z 0). rewrite <- Zlt_Qlt. apply Z.pow_pos_nonneg; lia. }
  assert (~ inject_Z (2 ^ k) == 0)%Q as Hne.
  { intros H. rewrite H in Hpos. by apply Qlt_irrefl in Hpos. }
  rewrite (round_half_even_exact _ (n * 2 ^ k)).
  - rewrite Hp, inject_Z_mult. field. exact Hne.
  - rewrite Hp, inject_Z_mult. field. exact Hne.
Qed.

Lemma Number_nonneg b : 0 <= b -> (0 <= JS.Number b)%Q.
Proof.
  intros Hb. apply binary64_nonneg. change 0%Q with (inject_Z 0).
  by rewrite <- Zle_Qle.
Qed.

Lemma Qle_0_durationInSeconds t0 t1 :
  t0 <= t1 -> (0 <= durationInSeconds t0 t1)%Q.
Proof.
  intros H. unfold durationInSeconds, JS.div. apply binary64_nonneg.
  apply Qle_shift_div_l; [done|]. rewrite Qmult_0_l. apply Number_nonneg. lia.
Qed.

(** The duration of a span of less than 2^53 nanoseconds (104 days) is the
    double nearest to the span in seconds. *)
Lemma durationInSeconds_rounds t0 t1 :
  0 <= t1 - t0 < 2 ^ 53 ->
  let elapsed := (inject_Z (t1 - t0) / inject_Z (10 ^ 9))%Q in
  (Qabs (durationInSeconds t0 t1 - elapsed) <= elapsed * (1 # 2 ^ 53))%Q.
Proof.
  intros Hspan. cbn zeta. unfold durationInSeconds, JS.div, JS.Number.
  pose proof (binary64_exact (t1 - t0) Hspan) as Hexact.
  set (n := JS.binary64 (inject_Z (t1 - t0))) in *.
  assert (0 <= n / 1e9)%Q as Hq.
  { apply Qle_shift_div_l; [done|]. rewrite Qmult_0_l, Hexact.
    change 0%Q with (inject_Z 0). rewrite <- Zle_Qle. lia. }
  pose proof (binary64_error (n / 1e9) Hq) as Herr.
  assert (inject_Z (t1 - t0) / inject_Z (10 ^ 9) == n / 1e9)%Q as ->;
    [|exact Herr].
  rewrite Hexact. reflexivity.
Qed.

End Numbers.

(** ** The registry and the scrape endpoint *)

Section Scrape.

Variable client : PromClient.

Lemma registerMetric_inr m r r' :
  registerMetric m r = inr r' ->
  (name m ∉ name <$> _metrics r) /\
  _metrics r' = _metrics r ++ [m] /\
  _defaultLabels r' = _defaultLabels r /\
  contentType r' = contentType r.
Proof.
  unfold registerMetric. case_bool_decide as Hin; [discriminate|].
  intros [= <-]. done.
Qed.

Lemma registerMetrics_inr ms r r' :
  registerMetrics ms r = inr r' ->
  _metrics r' = _metrics r ++ ms /\
  _defaultLabels r' = _defaultLabels r /\
  contentType r' = contentType r.
Proof.
  revert r. induction ms as [|m ms IH]; intros r; simpl.
  - intros [= <-]. by rewrite app_nil_r.
  - destruct (registerMetric m r) as [e|r1] eqn:E; [discriminate|].
    intros H. apply IH in H as (Hm & Hd & Hc).
    apply registerMetric_inr in E as (_ & Hm1 & Hd1 & Hc1).
    rewrite Hm, Hm1, Hd, Hd1, Hc, Hc1, <- app_assoc. done.
Qed.

(** What a successful load of the module leaves in [register]. *)
Lemma module_load_in_inr globalRegistry g register :
  module_load_in client globalRegistry = inr (g, register) ->
  _metrics register =
    defaultMetrics client ++ [httpRequestDuration; httpRequestsTotal] /\
  _defaultLabels register = {[ "service" := LStr "booking-service" ]} /\
  contentType register = PROMETHEUS_CONTENT_TYPE /\
  (name httpRequestDuration ∉ name <$> defaultMetrics client) /\
  (name httpRequestsTotal ∉ name <$> defaultMetrics client).
Proof.
  unfold module_load_in, collectDefaultMetrics, new_Metric.
  destruct (registerMetrics _ _) as [e|r1] eqn:E1; [discriminate|].
  destruct (registerMetric httpRequestDuration globalRegistry) as [e|g1];
    [discriminate|].
  destruct (registerMetric httpRequestDuration r1) as [e|r2] eqn:E2; [discriminate|].
  destruct (registerMetric httpRequestsTotal g1) as [e|g2]; [discriminate|].
  destruct (registerMetric httpRequestsTotal r2) as [e|r3] eqn:E3; [discriminate|].
  intros [= _ <-].
  apply registerMetrics_inr in E1 as (Hm1 & Hd1 & Hc1).
  apply registerMetric_inr in E2 as (Hn2 & Hm2 & Hd2 & Hc2).
  apply registerMetric_inr in E3 as (Hn3 & Hm3 & Hd3 & Hc3).
  cbn in Hm1, Hd1, Hc1.
  rewrite Hm1 in Hm2, Hn2. rewrite Hm2 in Hm3, Hn3.
  rewrite Hm3, Hd3, Hd2, Hd1, Hc3, Hc2, Hc1, <- app_assoc.
  repeat split; [done|].
  intros Hin. apply Hn3. rewrite fmap_app. apply elem_of_app. by left.
Qed.

Lemma module_load_inr register :
  module_load client = inr register ->
  _metrics register =
    defaultMetrics client ++ [httpRequestDuration; httpRequestsTotal] /\
  _defaultLabels register = {[ "service" := LStr "booking-service" ]} /\
  contentType register = PROMETHEUS_CONTENT_TYPE /\
  (name httpRequestDuration ∉ name <$> defaultMetrics client) /\
  (name httpRequestsTotal ∉ name <$> defaultMetrics client).
Proof.
  intros Hload.
  assert (exists g, module_load_in client new_Registry = inr (g, register))
    as [g Hin].
  { unfold module_load in Hload.
    destruct (module_load_in client new_Registry) as [e|[g r]]; [discriminate|].
    injection Hload as ->. eauto. }
  by apply module_load_in_inr in Hin.
Qed.

(** The handler, run on a live response: the header is set, then the
    registry is rendered and sent. *)
Lemma metricsHandler_responds register w rq_ref rs_ref rs :
  responses w !! rs_ref = Some rs ->
  let w1 := set_responses
              <[rs_ref := Response.set "Content-Type" (contentType register) rs]> w in
  let text := exposition client (getMetricsAsArray register w1) in
  metricsHandler client register rq_ref rs_ref w =
    Return tt (set_responses
                 <[rs_ref := Response.end_ text
                               (Response.set "Content-Type" (contentType register) rs)]>
                 w1).
Proof.
  intros Hrs. cbn zeta.
  unfold metricsHandler, res_set, res_end, Registry_metrics, bind, load_response,
    store_response.
  rewrite Hrs. cbn [set_responses responses]. by rewrite lookup_insert_eq.
Qed.

Lemma Labels_to_map_service l : Labels_to_map l !! "service" = None.
Proof.
  unfold Labels_to_map. rewrite !lookup_insert_ne by done.
  by apply lookup_singleton_ne.
Qed.

Lemma httpRequestDuration_service w s :
  s ∈ get httpRequestDuration w -> labels s !! "service" = None.
Proof.
  cbn [get httpRequestDuration]. intros Hin.
  apply list_elem_of_bind in Hin as (e & Hin & _).
  unfold histogram_series in Hin. apply elem_of_app in Hin as [Hin|Hin].
  - apply list_elem_of_fmap in Hin as (ub & -> & _). cbn [labels].
    rewrite lookup_insert_ne by done. apply Labels_to_map_service.
  - repeat (apply elem_of_cons in Hin as [->|Hin]; cbn [labels];
            [rewrite ?lookup_insert_ne by done; apply Labels_to_map_service|]).
    by apply elem_of_nil in Hin.
Qed.

Lemma httpRequestsTotal_service w s :
  s ∈ get httpRequestsTotal w -> labels s !! "service" = None.
Proof.
  cbn [get httpRequestsTotal]. intros Hin.
  apply list_elem_of_fmap in Hin as (e & -> & _). apply Labels_to_map_service.
Qed.

End Scrape.

(** C5.  [GET /metrics] sets [Content-Type] to the mime type of the text
    exposition format, then answers with the rendering of every instrument
    of the registry in its current state (each count of [http_requests_total]
    is there as a series); every series of that rendering carries the label
    [service] with the value [booking-service] that the module set when it
    built the registry.  The registry and the rest of the response are left
    as they were.  (The default instruments of the library are a parameter;
    none of their series is taken to use the label name [service] for
    itself.) *)
Theorem metrics_endpoint
    (client : PromClient) (register : Registry) (w : World)
    (rq_ref rs_ref : nat) (rs : Response.t) :
  module_load client = inr register ->
  responses w !! rs_ref = Some rs ->
  (forall m s w0, m ∈ defaultMetrics client -> s ∈ get m w0 ->
                  labels s !! "service" = None) ->
  exists (w1 w' : World) (fams : list MetricFamily),
    w1 = set_responses
           <[rs_ref := Response.set "Content-Type" PROMETHEUS_CONTENT_TYPE rs]> w /\
    fams = getMetricsAsArray register w1 /\
    metricsHandler client register rq_ref rs_ref w = Return tt w' /\
    responses w' =
      <[rs_ref := Response.make (Response.statusCode rs)
                    (<["Content-Type" := PROMETHEUS_CONTENT_TYPE]> (Response.headers rs))
                    (Some (exposition client fams))
                    (Response.finish rs)]> (responses w) /\
    hrtime w' = hrtime w /\
    requests w' = requests w /\
    histogram_hashMap w' = histogram_hashMap w /\
    counter_hashMap w' = counter_hashMap w /\
    family_name <$> fams = name <$> _metrics register /\
    (forall l n, counter_hashMap w !! l = Some n ->
       exists fam, fam ∈ fams /\
         family_name fam = "http_requests_total" /\
         mkSample "http_requests_total"
                  (Labels_to_map l ∪ {[ "service" := LStr "booking-service" ]})
                  (inject_Z (Z.of_N n)) ∈ family_values fam) /\
    (forall fam s, fam ∈ fams -> s ∈ family_values fam ->
                   labels s !! "service" = Some (LStr "booking-service")).
Proof.
  intros Hload Hrs Hdefaults.
  destruct (module_load_inr client register Hload) as (Hm & Hd & Hc & _ & _).
  pose proof (metricsHandler_responds client register w rq_ref rs_ref rs Hrs) as Hrun.
  cbn zeta in Hrun. rewrite Hc in Hrun.
  eexists _, _, _. split; [reflexivity|]. split; [reflexivity|].
  split; [exact Hrun|].
  split; [cbn [set_responses responses]; by rewrite insert_insert_eq|].
  do 4 (split; [reflexivity|]).
  split.
  { unfold getMetricsAsArray. rewrite <- list_fmap_compose. reflexivity. }
  split.
  { intros l n Hl. eexists. split; [|split].
    - unfold getMetricsAsArray. apply list_elem_of_fmap_2.
      rewrite Hm. apply elem_of_app. right. apply elem_of_cons. right.
      apply list_elem_of_here.
    - reflexivity.
    - cbn [family_values get httpRequestsTotal set_responses counter_hashMap].
      rewrite <- list_fmap_compose.
      apply (list_elem_of_fmap_2' _ _ (l, n)); [by apply elem_of_map_to_list|].
      cbn. unfold with_defaults. cbn. by rewrite Hd. }
  intros fam s Hfam Hs.
  unfold getMetricsAsArray in Hfam.
  apply list_elem_of_fmap in Hfam as (m & -> & Hin). cbn [family_values] in Hs.
  apply list_elem_of_fmap in Hs as (s0 & -> & Hs0).
  unfold with_defaults. cbn [labels]. rewrite Hd.
  assert (labels s0 !! "service" = None) as Hnone.
  { rewrite Hm in Hin. apply elem_of_app in Hin as [Hin|Hin].
    - by eapply Hdefaults.
    - apply elem_of_cons in Hin as [->|Hin];
        [by eapply httpRequestDuration_service|].
      apply elem_of_cons in Hin as [->|Hin];
        [by eapply httpRequestsTotal_service|].
      by apply elem_of_nil in Hin. }
  rewrite lookup_union_r by exact Hnone. apply lookup_singleton_eq.
Qed.

Lemma metrics_endpoint_witness :
  exists (w' : World) (text : string),
    metricsHandler Example.client Example.register 1 1 Example.completing
      = Return tt w' /\
    (Response.headers <$> responses w' !! 1%nat) =
      Some {[ "Content-Type" := PROMETHEUS_CONTENT_TYPE ]} /\
    (Response.body <$> responses w' !! 1%nat) = Some (Some text) /\
    counter_hashMap w' = counter_hashMap Example.completing.
Proof.
  destruct (metrics_endpoint Example.client Example.register Example.completing
              1 1 (Response.make 404 ∅ None [closure 100 1 1]) eq_refl eq_refl)
    as (w1 & w' & fams & _ & _ & Hrun & Hrs & _ & _ & _ & Hc & _ & _ & _).
  { intros m s w0 Hm Hs. apply list_elem_of_singleton in Hm as ->.
    apply list_elem_of_singleton in Hs as ->. reflexivity. }
  exists w', (exposition Example.client fams).
  split; [exact Hrun|]. rewrite Hrs, lookup_insert_eq. cbn.
  repeat split. exact Hc.
Defined.

(** C10.  The rendering sent by [GET /metrics] lists, before the two HTTP
    instruments, every default instrument that [collectDefaultMetrics]
    registered when the module was loaded; their names differ from the two
    HTTP names, so with at least one default instrument the output has more
    than the two. *)
Theorem scrape_includes_default_metrics
    (client : PromClient) (register : Registry) (w : World)
    (rq_ref rs_ref : nat) (rs : Response.t) :
  module_load client = inr register ->
  responses w !! rs_ref = Some rs ->
  exists (w' : World) (fams : list MetricFamily),
    metricsHandler client register rq_ref rs_ref w = Return tt w' /\
    (Response.body <$> responses w' !! rs_ref) = Some (Some (exposition client fams)) /\
    family_name <$> fams =
      (name <$> defaultMetrics client) ++
      ["http_request_duration_seconds"; "http_requests_total"] /\
    (forall m, m ∈ defaultMetrics client ->
       name m ∈ family_name <$> fams /\
       name m <> "http_request_duration_seconds" /\
       name m <> "http_requests_total") /\
    (defaultMetrics client <> [] -> (2 < length fams)%nat).
Proof.
  intros Hload Hrs.
  destruct (module_load_inr client register Hload) as (Hm & _ & _ & Hn1 & Hn2).
  pose proof (metricsHandler_responds client register w rq_ref rs_ref rs Hrs) as Hrun.
  cbn zeta in Hrun.
  eexists _, _. split; [exact Hrun|].
  split; [cbn [set_responses responses]; by rewrite lookup_insert_eq|].
  assert (forall w1, family_name <$> getMetricsAsArray register w1 =
            (name <$> defaultMetrics client) ++
            ["http_request_duration_seconds"; "http_requests_total"]) as Hnames.
  { intros w1. unfold getMetricsAsArray. rewrite <- list_fmap_compose, Hm, fmap_app.
    reflexivity. }
  split; [apply Hnames|]. split.
  - intros m Hin. split; [|split].
    + rewrite Hnames. apply elem_of_app. left. by apply list_elem_of_fmap_2.
    + intros Heq. apply Hn1. cbn [name httpRequestDuration]. rewrite <- Heq.
      by apply list_elem_of_fmap_2.
    + intros Heq. apply Hn2. cbn [name httpRequestsTotal]. rewrite <- Heq.
      by apply list_elem_of_fmap_2.
  - intros Hne. unfold getMetricsAsArray. rewrite length_fmap, Hm, length_app.
    destruct (defaultMetrics client); [done|]. simpl. lia.
Qed.

Lemma scrape_includes_default_metrics_witness :
  exists (w' : World) (fams : list MetricFamily),
    metricsHandler Example.client Example.register 1 1 Example.completing
      = Return tt w' /\
    family_name <$> fams =
      ["process_cpu_seconds_total"; "http_request_duration_seconds";
       "http_requests_total"].
Proof.
  destruct (scrape_includes_default_metrics Example.client Example.register
              Example.completing 1 1 (Response.make 404 ∅ None [closure 100 1 1])
              eq_refl eq_refl)
    as (w' & fams & Hrun & _ & Hnames & _).
  exists w', fams. split; [exact Hrun | exact Hnames].
Defined.

(** ** Traces of the running process *)

Section Traces.

Variable client : PromClient.
Variable register : Registry.

(** What the listeners of one completion leave: the clock, the requests and
    the responses as they were, and no count lower than before. *)
Lemma run_listeners_frame cbs w :
  let w' := world_of (run_listeners cbs w) in
  hrtime w' = hrtime w /\ requests w' = requests w /\ responses w' = responses w /\
  forall l, (counter_value w l <= counter_value w' l)%N.
Proof.
  revert w. induction cbs as [|cb cbs IH]; intros w; cbn zeta.
  - cbn. repeat split. intros l. lia.
  - cbn [run_listeners]. unfold bind.
    destruct (on_finish_cases cb w) as [(e & ->)|(l0 & d & ->)].
    + cbn. repeat split. intros l. lia.
    + destruct (IH (record_request l0 d w)) as (Ht & Hq & Hs & Hc).
      cbn zeta in *. rewrite Ht, Hq, Hs. repeat split.
      intros l. etrans; [|apply Hc]. rewrite counter_value_record. lia.
Qed.

Lemma step_Use_counter rq_ref rs_ref w :
  counter_hashMap (step client register (Use rq_ref rs_ref) w) = counter_hashMap w.
Proof.
  cbn [step]. unfold metricsMiddleware, res_on_finish, bind, hrtime_bigint,
    load_response, store_response.
  by destruct (responses w !! rs_ref).
Qed.

Lemma step_Use_histogram rq_ref rs_ref w :
  histogram_hashMap (step client register (Use rq_ref rs_ref) w) = histogram_hashMap w.
Proof.
  cbn [step]. unfold metricsMiddleware, res_on_finish, bind, hrtime_bigint,
    load_response, store_response.
  by destruct (responses w !! rs_ref).
Qed.

(** A scrape writes to its response and to nothing else. *)
Lemma step_Scrape rq_ref rs_ref w :
  let w' := step client register (Scrape rq_ref rs_ref) w in
  hrtime w' = hrtime w /\ requests w' = requests w /\
  histogram_hashMap w' = histogram_hashMap w /\
  counter_hashMap w' = counter_hashMap w /\
  forall r, (fun rs => (Response.statusCode rs, Response.finish rs)) <$> responses w' !! r
          = (fun rs => (Response.statusCode rs, Response.finish rs)) <$> responses w !! r.
Proof.
  cbn zeta. cbn [step].
  destruct (responses w !! rs_ref) as [rs|] eqn:Hrs.
  - rewrite (metricsHandler_responds client register w rq_ref rs_ref rs Hrs).
    cbn [world_of set_responses hrtime requests responses histogram_hashMap
         counter_hashMap].
    repeat split. intros r. rewrite insert_insert_eq.
    destruct (decide (r = rs_ref)) as [->|Hne].
    + by rewrite lookup_insert_eq, Hrs.
    + by rewrite lookup_insert_ne.
  - unfold metricsHandler, res_set, bind, load_response. rewrite Hrs.
    cbn. done.
Qed.

Lemma step_counter_le e w l :
  (counter_value w l <= counter_value (step client register e w) l)%N.
Proof.
  destruct e as [ns|fq fs|rq_ref rs_ref|rs_ref|rq_ref rs_ref].
  - apply N.le_refl.
  - apply N.le_refl.
  - unfold counter_value. rewrite step_Use_counter. lia.
  - cbn [step]. unfold emit_finish, bind, load_response.
    destruct (responses w !! rs_ref) as [rs|]; [|apply N.le_refl].
    apply (run_listeners_frame (Response.finish rs) w).
  - destruct (step_Scrape rq_ref rs_ref w) as (_ & _ & _ & Hc & _).
    cbn zeta in Hc. unfold counter_value. rewrite Hc. lia.
Qed.

Lemma run_cons e tr w :
  run client register (e :: tr) w = run client register tr (step client register e w).
Proof. reflexivity. Qed.

Lemma run_app tr1 tr2 w :
  run client register (tr1 ++ tr2) w =
    run client register tr2 (run client register tr1 w).
Proof. apply foldl_app. Qed.

Lemma run_counter_le tr w l :
  (counter_value w l <= counter_value (run client register tr w) l)%N.
Proof.
  revert w. induction tr as [|e tr IH]; intros w; [apply N.le_refl|].
  rewrite run_cons. etrans; [apply step_counter_le | apply IH].
Qed.

Lemma same_exchanges_labels_of w0 w cb :
  same_exchanges w0 w -> labels_of w cb = labels_of w0 cb.
Proof.
  intros [Hq Hs]. unfold labels_of. rewrite Hq.
  destruct (requests w0 !! req cb) as [rq|]; [|reflexivity].
  specialize (Hs (res cb)).
  destruct (responses w !! res cb) as [rs|], (responses w0 !! res cb) as [rs0|];
    cbn in Hs; try discriminate; [|reflexivity].
  injection Hs as -> _. reflexivity.
Qed.

Lemma step_Finish_records w r rs cb l :
  responses w !! r = Some rs ->
  Response.finish rs = [cb] ->
  labels_of w cb = Some l ->
  step client register (Finish r) w =
    record_request l (durationInSeconds (start cb) (hrtime w)) w.
Proof.
  intros Hrs Hcb Hl. cbn [step]. rewrite (emit_finish_single _ _ _ _ Hrs Hcb).
  rewrite (bind_Return _ _ _ _ _ (on_finish_live w cb l Hl)). reflexivity.
Qed.


Lemma run_without_completion tr w :
  completions tr = O ->
  histogram_hashMap (run client register tr w) = histogram_hashMap w /\
  counter_hashMap (run client register tr w) = counter_hashMap w.
Proof.
  revert w. induction tr as [|e tr IH]; intros w Hnone; [done|].
  rewrite run_cons. cbn [completions] in Hnone.
  destruct e as [ns|fq fs|rq_ref rs_ref|rs_ref|rq_ref rs_ref];
    cbn [is_finish] in Hnone; try discriminate Hnone;
    match goal with
    | |- context [run client register tr ?w1] =>
        destruct (IH w1 Hnone) as [-> ->]
    end.
  - done.
  - done.
  - by rewrite step_Use_histogram, step_Use_counter.
  - destruct (step_Scrape rq_ref rs_ref w) as (_ & _ & Hh & Hc & _).
    done.
Qed.

End Traces.

(** C6.  Along any sequence of events of the process, with requests
    passing through the middleware, responses completing, scrapes and the
    application at work in any order, the value of [http_requests_total]
    for a label set never goes down. *)
Theorem counter_never_decreases
    (client : PromClient) (register : Registry)
    (tr : list Event) (w : World) (l : Labels) :
  (counter_value w l <= counter_value (run client register tr w) l)%N.
Proof. apply run_counter_le. Qed.



(** C1, where the code departs from it.  A request matched by a route
    whose path is a regular expression completes without being recorded:
    the callback takes the regular expression for the route, finds no
    [replace] on it and throws, and the histogram and the counter hold
    nothing for any label set afterwards. *)
Theorem regexp_route_is_not_recorded :
  let w := run Example.client Example.register Scenario.regexp_routed
               Scenario.arriving_42 in
  let w' := run Example.client Example.register
                (Scenario.regexp_routed ++ [Finish 1%nat]) Scenario.arriving_42 in
  requests w !! 1%nat = Some Scenario.by_regexp /\
  (Response.finish <$> responses w !! 1%nat) = Some [closure 100 1 1] /\
  route_of Scenario.by_regexp = JS.regexp "^\/bookings\/(\d+)$" /\
  emit_finish 1 w = Throw (JS.TypeError "route.replace is not a function") w /\
  forall l, counter_value w' l = 0%N /\ observations w' l = [].
Proof.
  cbn zeta. rewrite run_app.
  set (w := run _ _ Scenario.regexp_routed _).
  assert (requests w !! 1%nat = Some Scenario.by_regexp) as Hrq by reflexivity.
  assert (responses w !! 1%nat = Some (Response.make 200 ∅ None [closure 100 1 1]))
    as Hrs by reflexivity.
  assert (emit_finish 1 w =
          Throw (JS.TypeError "route.replace is not a function") w) as Hrun.
  { unfold emit_finish, bind, load_response. rewrite Hrs.
    cbn [Response.finish run_listeners]. unfold bind.
    rewrite (on_finish_not_a_string w (closure 100 1 1) Scenario.by_regexp Hrq);
      [reflexivity|].
    intros s Hs. discriminate Hs. }
  split; [exact Hrq|]. split; [by rewrite Hrs|]. split; [reflexivity|].
  split; [exact Hrun|].
  assert (run Example.client Example.register [Finish 1%nat] w = w) as ->.
  { unfold run. cbn [foldl step]. by rewrite Hrun. }
  intros l.
  destruct (run_without_completion Example.client Example.register
              Scenario.regexp_routed Scenario.arriving_42 eq_refl) as [Hh Hc].
  fold w in Hh, Hc. unfold counter_value, observations. rewrite Hh, Hc.
  split; reflexivity.
Qed.

(** C4, where the code departs from it.  For a request matched by a route
    whose path is an array of paths, the callback of the middleware throws
    when the response completes: the exception leaves the callback and
    [res.emit('finish')] with it, which is an effect outside the registry. *)
Theorem array_route_throws_on_finish :
  let w := run Example.client Example.register Scenario.array_routed
               Scenario.arriving_42 in
  requests w !! 1%nat = Some Scenario.by_array /\
  (Response.finish <$> responses w !! 1%nat) = Some [closure 100 1 1] /\
  JS.truthy (route_of Scenario.by_array) = true /\
  (forall s, route_of Scenario.by_array <> JS.str s) /\
  on_finish (closure 100 1 1) w =
    Throw (JS.TypeError "route.replace is not a function") w /\
  emit_finish 1 w = Throw (JS.TypeError "route.replace is not a function") w.
Proof.
  cbn zeta. set (w := run _ _ _ _).
  assert (requests w !! 1%nat = Some Scenario.by_array) as Hrq by reflexivity.
  assert (responses w !! 1%nat = Some (Response.make 201 ∅ None [closure 100 1 1]))
    as Hrs by reflexivity.
  assert (forall s, route_of Scenario.by_array <> JS.str s) as Hroute
    by (intros s Hs; discriminate Hs).
  pose proof (on_finish_not_a_string w (closure 100 1 1) Scenario.by_array
                Hrq Hroute) as Hcb.
  split; [exact Hrq|]. split; [by rewrite Hrs|]. split; [reflexivity|].
  split; [exact Hroute|]. split; [exact Hcb|].
  unfold emit_finish, bind, load_response. rewrite Hrs.
  cbn [Response.finish run_listeners]. unfold bind. by rewrite Hcb.
Qed.

(** C7, as amended.  The middleware reads the clock when it is called and
    its callback keeps that reading; when the response completes, the
    callback reads the clock again and observes [Number(end - start) / 1e9],
    a division of doubles: the value observed is the difference of the two
    readings, which are in nanoseconds, divided by 10^9 and rounded to the
    nearest double.  For a span of less than 2^53 ns it is within 2^-53 of
    the span in seconds, relatively, and it is not negative. *)
Theorem duration_is_completion_minus_start
    (w0 w : World) (rq_ref rs_ref : nat)
    (rs0 : Response.t) (rq : Request.t) (rs : Response.t) (p : string)
    (next : M unit) :
  responses w0 !! rs_ref = Some rs0 ->
  Response.finish rs0 = [] ->
  requests w !! rq_ref = Some rq ->
  route_of rq = JS.str p ->
  responses w !! rs_ref = Some rs ->
  Response.finish rs = [closure (hrtime w0) rq_ref rs_ref] ->
  0 <= hrtime w - hrtime w0 < 2 ^ 53 ->
  exists (w1 : World) (rs1 : Response.t) (l : Labels) (d : Q) (w' : World),
    metricsMiddleware rq_ref rs_ref next w0 = next w1 /\
    responses w1 !! rs_ref = Some rs1 /\
    Response.finish rs1 = [closure (hrtime w0) rq_ref rs_ref] /\
    emit_finish rs_ref w = Return tt w' /\
    observations w' l = observations w l ++ [d] /\
    (forall l', l' <> l -> observations w' l' = observations w l') /\
    d = JS.div (JS.Number (hrtime w - hrtime w0)) 1e9%Q /\
    let elapsed := (inject_Z (hrtime w - hrtime w0) / inject_Z (10 ^ 9))%Q in
    (Qabs (d - elapsed) <= elapsed * (1 # 2 ^ 53))%Q /\
    (0 <= d)%Q.
Proof.
  intros Hrs0 Hfresh Hrq Hp Hrs Hcb Hspan.
  pose proof (on_finish_records w (closure (hrtime w0) rq_ref rs_ref) rq rs p
                Hrq Hrs Hp) as Hrun.
  eexists _, _, _, _, _.
  split; [by apply metricsMiddleware_registers|].
  split; [apply lookup_insert_eq|].
  split; [cbn; by rewrite Hfresh|].
  split.
  { rewrite (emit_finish_single _ _ _ _ Hrs Hcb).
    rewrite (bind_Return _ _ _ _ _ Hrun). reflexivity. }
  split.
  { rewrite observations_record. by rewrite decide_True. }
  split.
  { intros l' Hne. rewrite observations_record.
    rewrite decide_False by done. by rewrite app_nil_r. }
  split; [reflexivity|]. cbn zeta. split.
  - by apply durationInSeconds_rounds.
  - apply Qle_0_durationInSeconds. cbn [start]. lia.
Qed.

Lemma duration_is_completion_minus_start_witness :
  exists (l : Labels) (d : Q) (w' : World),
    emit_finish 1 Example.completing = Return tt w' /\
    observations w' l = observations Example.completing l ++ [d] /\
    d = JS.div (JS.Number (2600 - 100)) 1e9%Q /\
    (Qabs (d - inject_Z (2600 - 100) / inject_Z (10 ^ 9))
       <= inject_Z (2600 - 100) / inject_Z (10 ^ 9) * (1 # 2 ^ 53))%Q.
Proof.
  destruct (duration_is_completion_minus_start
              Example.arriving Example.completing 1 1
              (Response.make 200 ∅ None []) Example.request
              (Response.make 404 ∅ None [closure 100 1 1])
              "/bookings/507f1f77bcf86cd799439011" (ret tt)
              eq_refl eq_refl eq_refl eq_refl eq_refl eq_refl)
    as (w1 & rs1 & l & d & w' & _ & _ & _ & Hrun & Hobs & _ & Hd & Herr & _).
  { cbn. lia. }
  exists l, d, w'. split; [exact Hrun|]. split; [exact Hobs|].
  split; [exact Hd | exact Herr].
Defined.

(** C7 as stated fails: a response that completes 2500 ns after the
    middleware saw its request is observed with the double nearest to
    0.0000025, which is 5902958103587057 / 2^71 and not 2500 / 10^9. *)
Lemma duration_is_rounded :
  let w' := run Example.client Example.register
                [Use 1 1; Elapse 2500; Finish 1]%nat Example.arriving in
  observations w' (mkLabels "GET" "/bookings/:id" "200") =
    [durationInSeconds 100 2600] /\
  (durationInSeconds 100 2600 == 5902958103587057 # 2 ^ 71)%Q /\
  ~ (durationInSeconds 100 2600 * inject_Z (10 ^ 9) == inject_Z (2600 - 100))%Q.
Proof.
  cbn zeta. split; [|split].
  - vm_compute. reflexivity.
  - vm_compute. reflexivity.
  - intros H. vm_compute in H. discriminate H.
Qed.


(** * Further properties of the module *)

(** ** The normalisation of the route, line 47 *)

(** X1.  Nothing is left to replace: in a normalised route no slash is
    followed by 24 hexadecimal digits. *)
Theorem normalizedRoute_leaves_no_run (s : string) :
  has_objectid (normalizedRoute s) = false.
Proof.
  unfold normalizedRoute.
  apply (replace_objectids_scan (fun _ out => has_objectid out = false)).
  - reflexivity.
  - intros _ rest _ IH. cbn [String.append has_objectid].
    change (match_objectid (String "/" (String ":" ?x))) with (@None string).
    rewrite !match_objectid_nonslash by discriminate.
    rewrite IH. reflexivity.
  - intros c r Hm IH. cbn [has_objectid]. rewrite IH, orb_false_r.
    apply bool_decide_eq_false_2. intros [rest Hrest].
    unfold match_objectid in Hm, Hrest.
    destruct (Ascii.eqb c "/"); [|discriminate].
    by rewrite (take_class_replace_None _ _ Hm) in Hrest.
Qed.

(** X2.  Each replacement puts the 4 characters of [/:id] where 25 stood:
    the normalised route is shorter than the route by a multiple of 21
    characters, and never longer. *)
Theorem normalizedRoute_length (s : string) :
  exists k : nat,
    String.length s = (String.length (normalizedRoute s) + 21 * k)%nat.
Proof.
  unfold normalizedRoute.
  apply (replace_objectids_scan
    (fun s out => exists k : nat, String.length s = (String.length out + 21 * k)%nat)).
  - exists O. reflexivity.
  - intros s0 rest Hm [k IH].
    apply match_objectid_shape in Hm as (r & -> & Hm).
    apply take_class_length in Hm. unfold OBJECTID_LEN in Hm.
    exists (S k). cbn [String.append String.length] in *. lia.
  - intros c r _ [k IH]. exists k. cbn [String.length]. lia.
Qed.

(** X3.  Two routes that differ in one identifier get the same label. *)
Theorem normalizedRoute_collapses_ids (pre id1 id2 post : string) :
  is_objectid id1 = true ->
  is_objectid id2 = true ->
  normalizedRoute (pre +:+ "/" +:+ id1 +:+ post) =
  normalizedRoute (pre +:+ "/" +:+ id2 +:+ post).
Proof.
  intros H1 H2. unfold normalizedRoute.
  rewrite (replace_objectids_app pre ("/" +:+ id1 +:+ post)) by reflexivity.
  rewrite (replace_objectids_app pre ("/" +:+ id2 +:+ post)) by reflexivity.
  by rewrite (replace_objectids_objectid id1 post H1),
             (replace_objectids_objectid id2 post H2).
Qed.

Lemma normalizedRoute_collapses_ids_witness :
  normalizedRoute ("/bookings" +:+ "/" +:+ "507f1f77bcf86cd799439011" +:+ "/seats") =
  normalizedRoute ("/bookings" +:+ "/" +:+ "65A0C4E2B7D9F8136002ABCD" +:+ "/seats").
Proof.
  apply (normalizedRoute_collapses_ids "/bookings" "507f1f77bcf86cd799439011"
           "65A0C4E2B7D9F8136002ABCD" "/seats"); reflexivity.
Defined.

(** X4.  A route can be normalised piece by piece, cut wherever the second
    piece is empty or starts with a character that is not a hexadecimal
    digit, a slash for one. *)
Theorem normalizedRoute_app (a b : string) :
  starts_nonhex b ->
  normalizedRoute (a +:+ b) = normalizedRoute a +:+ normalizedRoute b.
Proof. intros Hb. unfold normalizedRoute. by apply replace_objectids_app. Qed.

Lemma normalizedRoute_app_witness :
  normalizedRoute ("/users/507f1f77bcf86cd799439011" +:+ "/bookings/65a0c4e2b7d9f8136002abcd") =
  normalizedRoute "/users/507f1f77bcf86cd799439011" +:+
  normalizedRoute "/bookings/65a0c4e2b7d9f8136002abcd".
Proof.
  apply (normalizedRoute_app "/users/507f1f77bcf86cd799439011"
           "/bookings/65a0c4e2b7d9f8136002abcd").
  reflexivity.
Defined.

(** X5.  An identifier that no slash precedes is kept: a string without a
    slash is its own normalisation. *)
Theorem normalizedRoute_without_slash (s : string) :
  forallb (fun c => negb (Ascii.eqb c "/")) (String.list_ascii_of_string s) = true ->
  normalizedRoute s = s.
Proof.
  intros H. unfold normalizedRoute. apply no_objectid_verbatim.
  induction s as [|c r IH]; [reflexivity|].
  cbn [String.list_ascii_of_string forallb] in H. apply andb_true_iff in H as [Hc Hr].
  cbn [has_objectid]. rewrite (IH Hr), orb_false_r.
  apply bool_decide_eq_false_2. intros [rest Hrest].
  rewrite match_objectid_nonslash in Hrest; [discriminate|].
  intros ->. discriminate Hc.
Qed.

Lemma normalizedRoute_without_slash_witness :
  normalizedRoute "507f1f77bcf86cd799439011" = "507f1f77bcf86cd799439011".
Proof. apply normalizedRoute_without_slash. reflexivity. Defined.

(** ** The labels, lines 46 to 53 *)

(** X6.  The route label is never missing: the chain of [||] ends in a
    string that is not empty, so [route.replace] is called on a truthy
    value.  When that value is a string it is not empty, the call returns,
    and the normalised route starts with the character the route starts
    with.  When it is not a string the call throws a [TypeError]. *)
Theorem route_label_never_empty (rq : Request.t) :
  JS.truthy (route_of rq) = true /\
  (forall s, route_of rq = JS.str s ->
     exists (c : ascii) (r rest : string),
       s = String c r /\
       normalizedRoute s = String c rest /\
       String_replace (route_of rq) = ret (String c rest)) /\
  ((forall s, route_of rq <> JS.str s) ->
     String_replace (route_of rq) =
       throw (JS.TypeError "route.replace is not a function")).
Proof.
  pose proof (route_of_truthy rq) as Ht. split; [exact Ht|]. split.
  - intros s Hs. pose proof (route_of_nonempty rq s Hs) as Hne.
    destruct s as [|c r]; [done|].
    destruct (replace_objectids_head c r) as [rest Hrest].
    exists c, r, rest. split; [reflexivity|]. split; [exact Hrest|].
    rewrite Hs. cbn [String_replace]. by rewrite Hrest.
  - intros Hs. destruct (route_of rq) as [|s|re|items].
    + discriminate Ht.
    + by destruct (Hs s).
    + reflexivity.
    + reflexivity.
Qed.

(** X7.  The status label tells the status codes apart: requests that
    differ in their status code only are recorded under different label
    sets. *)
Theorem status_label_injective (m r : string) (a b : Z) :
  a <> b ->
  mkLabels m r (JS.toString a) <> mkLabels m r (JS.toString b).
Proof.
  intros Hne [= H]. apply Hne. unfold JS.toString in H.
  assert (Z.to_int a = Z.to_int b) as Hint.
  { pose proof (NilEmpty.isi (Z.to_int a)) as Ha.
    pose proof (NilEmpty.isi (Z.to_int b)) as Hb.
    rewrite H in Ha. rewrite Ha in Hb. by injection Hb. }
  rewrite <- (DecimalZ.of_to a), <- (DecimalZ.of_to b). by rewrite Hint.
Qed.

Lemma status_label_injective_witness :
  mkLabels "GET" "/bookings/:id" (JS.toString 200) <>
  mkLabels "GET" "/bookings/:id" (JS.toString 404).
Proof. apply status_label_injective. lia. Defined.

(** X8.  For the status codes HTTP has, 100 to 999, the status label is
    three decimal digits, the hundreds first: a matcher on the first
    character, such as [5..], selects a class of status codes. *)
Theorem status_label_three_digits (code : Z) :
  100 <= code <= 999 ->
  JS.toString code =
    String (digit (code / 100))
      (String (digit (code / 10 mod 10)) (String (digit (code mod 10)) "")).
Proof.
  intros Hrange.
  assert (forallb
            (fun i => String.eqb
               (JS.toString (100 + Z.of_nat i))
               (String (digit ((100 + Z.of_nat i) / 100))
                  (String (digit ((100 + Z.of_nat i) / 10 mod 10))
                     (String (digit ((100 + Z.of_nat i) mod 10)) ""))))
            (seq 0 900) = true) as Hall by (vm_compute; reflexivity).
  rewrite forallb_forall in Hall.
  specialize (Hall (Z.to_nat (code - 100))).
  replace (100 + Z.of_nat (Z.to_nat (code - 100))) with code in Hall by lia.
  apply String.eqb_eq, Hall, in_seq. lia.
Qed.

Lemma status_label_three_digits_witness : JS.toString 503 = "503".
Proof. apply (status_label_three_digits 503). lia. Defined.

(** ** The callback and the completion of responses, lines 41 to 57 *)

Section Completions.

Variable client : PromClient.
Variable register : Registry.

Lemma records_of_record l d w cbs :
  records_of (record_request l d w) cbs = records_of w cbs.
Proof. induction cbs as [|cb cbs IH]; [reflexivity|]. cbn. by rewrite IH. Qed.

Lemma responses_record_all ps w : responses (record_all ps w) = responses w.
Proof.
  revert w. induction ps as [|p ps IH]; intros w; [reflexivity|].
  cbn [record_all foldl]. fold (record_all ps (record_request p.1 p.2 w)).
  by rewrite IH.
Qed.

Lemma hrtime_record_all ps w : hrtime (record_all ps w) = hrtime w.
Proof.
  revert w. induction ps as [|p ps IH]; intros w; [reflexivity|].
  cbn [record_all foldl]. fold (record_all ps (record_request p.1 p.2 w)).
  by rewrite IH.
Qed.

(** The listeners of one completion, as a list of records. *)
Lemma run_listeners_records cbs w :
  world_of (run_listeners cbs w) = record_all (records_of w cbs) w.
Proof.
  revert w. induction cbs as [|cb cbs IH]; intros w; [reflexivity|].
  cbn [run_listeners records_of]. unfold bind.
  destruct (labels_of w cb) as [l|] eqn:Hl.
  - rewrite (on_finish_live w cb l Hl). rewrite IH, records_of_record.
    reflexivity.
  - destruct (on_finish_gone w cb Hl) as [e ->]. reflexivity.
Qed.

Lemma step_Finish_record_all w r :
  step client register (Finish r) w = record_all (recorded_by w r) w.
Proof.
  cbn [step]. unfold emit_finish, bind, load_response, recorded_by.
  destruct (responses w !! r) as [rs|]; [apply run_listeners_records|reflexivity].
Qed.

Lemma durations_under_cons l p ps :
  durations_under l (p :: ps) =
    (if decide (p.1 = l) then [p.2] else []) ++ durations_under l ps.
Proof.
  unfold durations_under. rewrite filter_cons.
  by destruct (decide (p.1 = l)).
Qed.

Lemma counter_value_record_all ps w l :
  counter_value (record_all ps w) l =
    (counter_value w l + N.of_nat (length (durations_under l ps)))%N.
Proof.
  revert w. induction ps as [|p ps IH]; intros w.
  - cbn. lia.
  - cbn [record_all foldl]. fold (record_all ps (record_request p.1 p.2 w)).
    rewrite IH, counter_value_record, durations_under_cons, length_app.
    destruct (decide (l = p.1)) as [->|Hne].
    + rewrite decide_True by done. cbn [length]. lia.
    + rewrite decide_False by done. cbn [length]. lia.
Qed.

Lemma observations_record_all ps w l :
  observations (record_all ps w) l = observations w l ++ durations_under l ps.
Proof.
  revert w. induction ps as [|p ps IH]; intros w.
  - cbn. by rewrite app_nil_r.
  - cbn [record_all foldl]. fold (record_all ps (record_request p.1 p.2 w)).
    rewrite IH, observations_record, durations_under_cons, <- app_assoc.
    destruct (decide (l = p.1)) as [->|Hne].
    + by rewrite decide_True.
    + by rewrite decide_False.
Qed.

Lemma requests_record_all ps w : requests (record_all ps w) = requests w.
Proof.
  revert w. induction ps as [|p ps IH]; intros w; [reflexivity|].
  cbn [record_all foldl]. fold (record_all ps (record_request p.1 p.2 w)).
  by rewrite IH.
Qed.

Lemma occurrences_app l a b :
  occurrences l (a ++ b) = (occurrences l a + occurrences l b)%nat.
Proof. unfold occurrences. by rewrite filter_app, length_app. Qed.

Lemma occurrences_durations l ps :
  length (durations_under l ps) = occurrences l (fst <$> ps).
Proof.
  unfold durations_under, occurrences. rewrite length_fmap.
  induction ps as [|p ps IH]; [reflexivity|].
  rewrite fmap_cons, !filter_cons.
  destruct (decide (p.1 = l)); cbn [length]; by rewrite IH.
Qed.

Lemma occurrences_replicate l l' n :
  occurrences l (replicate n l') = if decide (l' = l) then n else O.
Proof.
  unfold occurrences. induction n as [|n IH]; [by destruct (decide _)|].
  cbn [replicate]. rewrite filter_cons.
  destruct (decide (l' = l)); cbn [length]; by rewrite IH.
Qed.

(** What one event does to the registry: nothing, unless it is a
    completion, which adds one to the counter and one observation to the
    histogram for each label set it records under. *)
Lemma step_registry e w l :
  let ls := match e with Finish r => labels_by w r | _ => [] end in
  counter_value (step client register e w) l =
    (counter_value w l + N.of_nat (occurrences l ls))%N /\
  length (observations (step client register e w) l) =
    (length (observations w l) + occurrences l ls)%nat.
Proof.
  cbn zeta. destruct e as [ns|fq fs|rq_ref rs_ref|rs_ref|rq_ref rs_ref];
    try change (occurrences l []) with O.
  - split; [change (counter_value w l = (counter_value w l + 0)%N)
           | change (length (observations w l) = (length (observations w l) + 0)%nat)];
      lia.
  - split; [change (counter_value w l = (counter_value w l + 0)%N)
           | change (length (observations w l) = (length (observations w l) + 0)%nat)];
      lia.
  - unfold counter_value, observations.
    rewrite step_Use_counter, step_Use_histogram. split; lia.
  - rewrite step_Finish_record_all, counter_value_record_all,
      observations_record_all, length_app, occurrences_durations.
    split; reflexivity.
  - destruct (step_Scrape client register rq_ref rs_ref w) as (_ & _ & Hh & Hc & _).
    cbn zeta in *. unfold counter_value, observations. rewrite Hh, Hc.
    split; lia.
Qed.

Lemma run_registry tr w l :
  counter_value (run client register tr w) l =
    (counter_value w l + N.of_nat (occurrences l (labels_along client register tr w)))%N /\
  length (observations (run client register tr w) l) =
    (length (observations w l) + occurrences l (labels_along client register tr w))%nat.
Proof.
  revert w. induction tr as [|e tr IH]; intros w.
  - change (occurrences l (labels_along client register [] w)) with O.
    change (run client register [] w) with w. split; lia.
  - rewrite run_cons. cbn [labels_along]. rewrite occurrences_app.
    destruct (IH (step client register e w)) as [-> ->].
    destruct (step_registry e w l) as [-> ->]. split; lia.
Qed.

(** The label sets a completion records under depend on the requests and
    on the status code and the listeners of the responses only. *)
Lemma records_of_same_exchanges w0 w cbs :
  same_exchanges w0 w -> fst <$> records_of w cbs = fst <$> records_of w0 cbs.
Proof.
  intros Hsame. induction cbs as [|cb cbs IH]; [reflexivity|].
  cbn [records_of]. rewrite (same_exchanges_labels_of w0 w cb Hsame).
  destruct (labels_of w0 cb); [|reflexivity].
  rewrite !fmap_cons. by rewrite IH.
Qed.

Lemma labels_by_same_exchanges w0 w r :
  same_exchanges w0 w -> labels_by w r = labels_by w0 r.
Proof.
  intros Hsame. unfold labels_by, recorded_by.
  pose proof (proj2 Hsame r) as Hr.
  destruct (responses w !! r) as [rs|], (responses w0 !! r) as [rs0|];
    cbn in Hr; try discriminate; [|reflexivity].
  injection Hr as _ ->. by apply records_of_same_exchanges.
Qed.

Lemma step_settled e w0 w :
  settled e = true -> same_exchanges w0 w ->
  same_exchanges w0 (step client register e w).
Proof.
  intros He [Hq Hs].
  destruct e as [ns|fq fs|rq_ref rs_ref|rs_ref|rq_ref rs_ref];
    try discriminate He.
  - split; [exact Hq | exact Hs].
  - rewrite step_Finish_record_all. split.
    + by rewrite requests_record_all.
    + intros r. by rewrite responses_record_all.
  - destruct (step_Scrape client register rq_ref rs_ref w) as (_ & Hq' & _ & _ & Hs').
    cbn zeta in *. split; [by rewrite Hq'|]. intros r. by rewrite Hs'.
Qed.

Lemma labels_along_settled tr w0 w :
  forallb settled tr = true -> same_exchanges w0 w ->
  labels_along client register tr w =
    tr ≫= (fun e => match e with Finish r => labels_by w0 r | _ => [] end).
Proof.
  revert w. induction tr as [|e tr IH]; intros w Hall Hsame; [reflexivity|].
  cbn [forallb] in Hall. apply andb_true_iff in Hall as [He Hall].
  cbn [labels_along]. rewrite bind_cons.
  rewrite (IH _ Hall (step_settled e w0 w He Hsame)).
  f_equal. destruct e; try reflexivity. by apply labels_by_same_exchanges.
Qed.

(** The middleware, run [n] times for one request on a live response:
    [n] listeners more, all holding the clock reading of the moment, and
    nothing else changed. *)
Lemma run_Use_replicate n rq_ref rs_ref w rs :
  responses w !! rs_ref = Some rs ->
  let w' := run client register (replicate n (Use rq_ref rs_ref)) w in
  hrtime w' = hrtime w /\ requests w' = requests w /\
  histogram_hashMap w' = histogram_hashMap w /\
  counter_hashMap w' = counter_hashMap w /\
  exists rs', responses w' !! rs_ref = Some rs' /\
    Response.statusCode rs' = Response.statusCode rs /\
    Response.finish rs' =
      Response.finish rs ++ replicate n (closure (hrtime w) rq_ref rs_ref).
Proof.
  revert w rs. induction n as [|n IH]; intros w rs Hrs; cbn zeta.
  - cbn. repeat split. exists rs. by rewrite app_nil_r.
  - cbn [replicate]. rewrite run_cons.
    assert (step client register (Use rq_ref rs_ref) w =
            set_responses
              <[rs_ref := Response.on (closure (hrtime w) rq_ref rs_ref) rs]> w) as ->.
    { cbn [step].
      by rewrite (metricsMiddleware_registers w rq_ref rs_ref rs (ret tt) Hrs). }
    edestruct (IH (set_responses
                     <[rs_ref := Response.on (closure (hrtime w) rq_ref rs_ref) rs]> w))
      as (Ht & Hq & Hh & Hc & rs' & Hrs' & Hst & Hfin).
    { cbn. apply lookup_insert_eq. }
    cbn zeta in *. rewrite Ht, Hq, Hh, Hc. repeat split.
    exists rs'. split; [exact Hrs'|]. split; [exact Hst|].
    rewrite Hfin. cbn. by rewrite <- app_assoc.
Qed.

End Completions.

(** X9.  When a response completes, every listener the middleware put on
    it runs: with the middleware mounted [n] times in front of a route whose
    label is a string, one completed request is counted [n] times and
    observed [n] times, under its own label set and no other; with none,
    nothing is recorded. *)
Theorem finish_runs_every_listener
    (client : PromClient) (register : Registry) (w : World)
    (rq_ref rs_ref : nat) (rq : Request.t) (rs : Response.t) (p : string)
    (n : nat) (ns : N) :
  requests w !! rq_ref = Some rq ->
  responses w !! rs_ref = Some rs ->
  Response.finish rs = [] ->
  route_of rq = JS.str p ->
  let l := mkLabels (Request.method rq) (normalizedRoute p)
                    (JS.toString (Response.statusCode rs)) in
  let w' := run client register
              (replicate n (Use rq_ref rs_ref) ++ [Elapse ns; Finish rs_ref]) w in
  counter_value w' l = (counter_value w l + N.of_nat n)%N /\
  length (observations w' l) = (length (observations w l) + n)%nat /\
  (forall l', l' <> l ->
     counter_value w' l' = counter_value w l' /\
     observations w' l' = observations w l').
Proof.
  intros Hrq Hrs Hfresh Hp. cbn zeta.
  set (l := mkLabels (Request.method rq) (normalizedRoute p)
                     (JS.toString (Response.statusCode rs))).
  rewrite run_app.
  destruct (run_Use_replicate client register n rq_ref rs_ref w rs Hrs)
    as (Ht & Hq & Hh & Hc & rs' & Hrs' & Hst & Hfin).
  cbn zeta in *. rewrite Hfresh in Hfin. cbn [app] in Hfin.
  set (w1 := run client register (replicate n (Use rq_ref rs_ref)) w) in *.
  rewrite !run_cons. set (w2 := step client register (Elapse ns) w1).
  assert (run client register [] (step client register (Finish rs_ref) w2) =
          step client register (Finish rs_ref) w2) as -> by reflexivity.
  set (cb := closure (hrtime w) rq_ref rs_ref) in *.
  assert (labels_of w2 cb = Some l) as Hl.
  { unfold labels_of. cbn [req res cb].
    change (requests w2) with (requests w1). change (responses w2) with (responses w1).
    by rewrite Hq, Hrq, Hrs', Hp, Hst. }
  assert (forall k, records_of w2 (replicate k cb) =
                    replicate k (l, durationInSeconds (start cb) (hrtime w2))) as Hrec.
  { induction k as [|k IH]; [reflexivity|].
    cbn [replicate records_of]. by rewrite Hl, IH. }
  assert (recorded_by w2 rs_ref =
          replicate n (l, durationInSeconds (start cb) (hrtime w2))) as Hby.
  { unfold recorded_by. change (responses w2) with (responses w1).
    by rewrite Hrs', Hfin, Hrec. }
  assert (forall l', occurrences l' (fst <$> recorded_by w2 rs_ref) =
                     if decide (l = l') then n else O) as Hocc.
  { intros l'. rewrite Hby, fmap_replicate. apply occurrences_replicate. }
  assert (counter_value w2 = counter_value w) as Hcw
    by (unfold counter_value; change (counter_hashMap w2) with (counter_hashMap w1);
        by rewrite Hc).
  assert (observations w2 = observations w) as How
    by (unfold observations; change (histogram_hashMap w2) with (histogram_hashMap w1);
        by rewrite Hh).
  rewrite step_Finish_record_all.
  split; [|split].
  - rewrite counter_value_record_all, occurrences_durations, Hocc, Hcw.
    by rewrite decide_True.
  - rewrite observations_record_all, length_app, occurrences_durations, Hocc, How.
    by rewrite decide_True.
  - intros l' Hne.
    assert (durations_under l' (recorded_by w2 rs_ref) = []) as Hnone.
    { apply length_zero_iff_nil. rewrite occurrences_durations, Hocc.
      by rewrite decide_False. }
    rewrite counter_value_record_all, observations_record_all, Hnone, Hcw, How.
    cbn. rewrite app_nil_r. split; [lia | reflexivity].
Qed.

Lemma finish_runs_every_listener_witness :
  counter_value
    (run Example.client Example.register
       (replicate 2 (Use 1 1) ++ [Elapse 2500; Finish 1])%nat Example.arriving)
    (mkLabels "GET" "/bookings/:id" "200") = 2%N.
Proof.
  apply (finish_runs_every_listener Example.client Example.register
           Example.arriving 1 1 Example.request (Response.make 200 ∅ None [])
           "/bookings/507f1f77bcf86cd799439011" 2 2500
           eq_refl eq_refl eq_refl eq_refl).
Defined.

(** X10.  Along any sequence of events the counter of a label set stands
    at its prior value plus the number of callbacks that recorded under that
    label set at the completions of the sequence, and the histogram has that
    many more observations: nothing is lost and nothing is counted twice,
    whatever the mix of events, of label sets and of listeners per
    response. *)
Theorem completions_are_accounted
    (client : PromClient) (register : Registry)
    (tr : list Event) (w : World) (l : Labels) :
  counter_value (run client register tr w) l =
    (counter_value w l +
     N.of_nat (occurrences l (labels_along client register tr w)))%N /\
  length (observations (run client register tr w) l) =
    (length (observations w l) +
     occurrences l (labels_along client register tr w))%nat.
Proof. apply run_registry. Qed.

(** X11.  The order in which responses complete, time passes and scrapes
    are served does not matter to the counter, nor to the number of
    observations the histogram holds for a label set. *)
Theorem completion_order_is_irrelevant
    (client : PromClient) (register : Registry)
    (tr tr' : list Event) (w : World) (l : Labels) :
  tr ≡ₚ tr' ->
  forallb settled tr = true ->
  counter_value (run client register tr w) l =
  counter_value (run client register tr' w) l /\
  length (observations (run client register tr w) l) =
  length (observations (run client register tr' w) l).
Proof.
  intros Hperm Hall.
  assert (forallb settled tr' = true) as Hall'.
  { apply forallb_forall. intros e He. rewrite forallb_forall in Hall.
    apply Hall. apply list_elem_of_In. rewrite Hperm. by apply list_elem_of_In. }
  assert (same_exchanges w w) as Hsame by (split; [reflexivity | intros r; reflexivity]).
  destruct (run_registry client register tr w l) as [-> ->].
  destruct (run_registry client register tr' w l) as [-> ->].
  rewrite (labels_along_settled client register tr w w Hall Hsame).
  rewrite (labels_along_settled client register tr' w w Hall' Hsame).
  assert (occurrences l
            (tr ≫= (fun e => match e with Finish r => labels_by w r | _ => [] end)) =
          occurrences l
            (tr' ≫= (fun e => match e with Finish r => labels_by w r | _ => [] end)))
    as ->; [|split; reflexivity].
  unfold occurrences. by rewrite Hperm.
Qed.

Lemma completion_order_is_irrelevant_witness :
  counter_value
    (run Example.client Example.register
       [Finish 1; Elapse 1000; Scrape 4 4; Finish 2; Finish 3]%nat
       Example.three_completing) Example.labels_404 =
  counter_value
    (run Example.client Example.register
       [Finish 3; Finish 2; Scrape 4 4; Elapse 1000; Finish 1]%nat
       Example.three_completing) Example.labels_404.
Proof.
  apply (completion_order_is_irrelevant Example.client Example.register
           [Finish 1; Elapse 1000; Scrape 4 4; Finish 2; Finish 3]%nat
           [Finish 3; Finish 2; Scrape 4 4; Elapse 1000; Finish 1]%nat
           Example.three_completing Example.labels_404).
  - apply Permutation_rev.
  - reflexivity.
Defined.

(** ** Invariants of the running process *)

Section Invariants.

Variable client : PromClient.
Variable register : Registry.

Lemma count_matches_registry w w' :
  histogram_hashMap w' = histogram_hashMap w ->
  counter_hashMap w' = counter_hashMap w ->
  count_matches w -> count_matches w'.
Proof.
  intros Hh Hc Hw l. specialize (Hw l).
  unfold observations, counter_value in *. by rewrite Hh, Hc.
Qed.

Lemma count_matches_record_all ps w :
  count_matches w -> count_matches (record_all ps w).
Proof.
  intros Hw l. specialize (Hw l).
  rewrite counter_value_record_all, observations_record_all, length_app. lia.
Qed.

Lemma step_count_matches e w :
  count_matches w -> count_matches (step client register e w).
Proof.
  destruct e as [ns|fq fs|rq_ref rs_ref|rs_ref|rq_ref rs_ref].
  - by apply count_matches_registry.
  - by apply count_matches_registry.
  - apply count_matches_registry; [apply step_Use_histogram | apply step_Use_counter].
  - rewrite step_Finish_record_all. apply count_matches_record_all.
  - destruct (step_Scrape client register rq_ref rs_ref w) as (_ & _ & Hh & Hc & _).
    by apply count_matches_registry.
Qed.

Lemma records_of_timely w cbs :
  (forall cb, cb ∈ cbs -> start cb <= hrtime w) ->
  Forall (fun p => (0 <= p.2)%Q) (records_of w cbs).
Proof.
  induction cbs as [|cb cbs IH]; intros Hcbs; [constructor|].
  cbn [records_of]. destruct (labels_of w cb); [|constructor].
  constructor.
  - apply Qle_0_durationInSeconds, Hcbs. apply list_elem_of_here.
  - apply IH. intros cb' Hin. apply Hcbs. by apply list_elem_of_further.
Qed.

Lemma durations_under_elem l ps d :
  d ∈ durations_under l ps -> exists p, p ∈ ps /\ p.2 = d.
Proof.
  unfold durations_under. intros Hin.
  apply list_elem_of_fmap in Hin as (p & -> & Hin).
  apply list_elem_of_filter in Hin as [_ Hin]. eauto.
Qed.

Lemma step_timely e w :
  adds_no_listener e -> timely w -> timely (step client register e w).
Proof.
  intros He [Hstart Hobs].
  destruct e as [ns|fq fs|rq_ref rs_ref|rs_ref|rq_ref rs_ref].
  - split; [|exact Hobs]. intros r rs cb Hrs Hcb. cbn [step hrtime].
    specialize (Hstart r rs cb Hrs Hcb). lia.
  - split; [|exact Hobs]. intros r rs cb Hrs Hcb. cbn [step hrtime responses] in *.
    destruct (He _ _ _ _ Hrs Hcb) as (r0 & rs0 & Hrs0 & Hcb0).
    by eapply Hstart.
  - cbn [step]. unfold metricsMiddleware, res_on_finish, bind, hrtime_bigint,
      load_response, store_response.
    destruct (responses w !! rs_ref) as [rs0|] eqn:Hrs0; [|by split].
    cbn [world_of ret]. split; [|exact Hobs].
    intros r rs cb Hrs Hcb. cbn [set_responses responses hrtime] in *.
    destruct (decide (r = rs_ref)) as [->|Hne].
    + rewrite lookup_insert_eq in Hrs. injection Hrs as <-.
      cbn [Response.on Response.finish] in Hcb.
      apply elem_of_app in Hcb as [Hcb|Hcb]; [by eapply Hstart|].
      apply list_elem_of_singleton in Hcb as ->. cbn. lia.
    + rewrite lookup_insert_ne in Hrs by done. by eapply Hstart.
  - rewrite step_Finish_record_all. split.
    + intros r rs cb Hrs Hcb. rewrite responses_record_all in Hrs.
      rewrite hrtime_record_all. by eapply Hstart.
    + intros l d Hd. rewrite observations_record_all in Hd.
      apply elem_of_app in Hd as [Hd|Hd]; [by eapply Hobs|].
      apply durations_under_elem in Hd as (p & Hp & <-).
      unfold recorded_by in Hp.
      destruct (responses w !! rs_ref) as [rs|] eqn:Hrs; [|by apply elem_of_nil in Hp].
      pose proof (records_of_timely w (Response.finish rs)
                    (fun cb Hcb => Hstart rs_ref rs cb Hrs Hcb)) as Hall.
      rewrite Forall_forall in Hall. by apply Hall.
  - destruct (step_Scrape client register rq_ref rs_ref w) as (Ht & _ & Hh & _ & Hk).
    cbn zeta in *. split.
    + intros r rs cb Hrs Hcb. rewrite Ht.
      specialize (Hk r). rewrite Hrs in Hk. cbn in Hk.
      destruct (responses w !! r) as [rs0|] eqn:Hrs0; [|discriminate].
      cbn in Hk. injection Hk as _ Hfin. rewrite Hfin in Hcb. by eapply Hstart.
    + intros l d Hd. unfold observations in *. rewrite Hh in Hd. by eapply Hobs.
Qed.

End Invariants.

(** X12.  The middleware observes and counts together: along any
    sequence of events, for every label set, the histogram holds as many
    observations as the counter has counted, once it did at the start (as
    with the empty registry of a fresh process). *)
Theorem histogram_count_matches_counter
    (client : PromClient) (register : Registry)
    (tr : list Event) (w : World) :
  count_matches w -> count_matches (run client register tr w).
Proof.
  revert w. induction tr as [|e tr IH]; intros w Hw; [exact Hw|].
  rewrite run_cons. by apply IH, step_count_matches.
Qed.

Lemma histogram_count_matches_counter_witness :
  count_matches (run Example.client Example.register Example.two_requests
                     Example.two_arriving).
Proof.
  apply histogram_count_matches_counter. intros l. reflexivity.
Defined.

(** X13.  No negative duration is observed: the clock of the process does
    not go back, each callback holds a reading taken before it fires, and
    so, along any sequence of events in which the application puts no
    callback of its own on a response, every observation in the histogram
    is at least zero. *)
Theorem durations_are_never_negative
    (client : PromClient) (register : Registry)
    (tr : list Event) (w : World) :
  timely w ->
  Forall adds_no_listener tr ->
  timely (run client register tr w) /\
  forall l d, d ∈ observations (run client register tr w) l -> (0 <= d)%Q.
Proof.
  intros Hw Htr.
  assert (timely (run client register tr w)) as H.
  { revert w Hw. induction Htr as [|e tr He _ IH]; intros w Hw; [exact Hw|].
    rewrite run_cons. by apply IH, step_timely. }
  split; [exact H | exact (proj2 H)].
Qed.

Lemma durations_are_never_negative_witness :
  timely (run Example.client Example.register
              [Use 1 1; Elapse 2500; Finish 1]%nat Example.arriving).
Proof.
  apply (durations_are_never_negative Example.client Example.register
           [Use 1 1; Elapse 2500; Finish 1]%nat Example.arriving).
  - split.
    + intros r rs cb Hrs Hcb. unfold Example.arriving in Hrs. cbn in Hrs.
      apply lookup_singleton_Some in Hrs as [_ <-]. by apply elem_of_nil in Hcb.
    + intros l d Hd. by apply elem_of_nil in Hd.
  - repeat constructor.
Defined.


(** ** The middleware, the application and the completion together *)

(** X14.  The callback reads the request and the response when it fires,
    not when the middleware ran: if the router matches the route and the
    handler sets the status code after the middleware has passed the
    request on, the request is counted under the matched pattern and the
    final status code, and the duration observed is the time that passed
    between the middleware and the completion. *)
Theorem labels_are_read_at_completion
    (client : PromClient) (register : Registry) (w : World)
    (rq_ref rs_ref : nat) (rq : Request.t) (rs : Response.t)
    (pattern : string) (code : Z) (ns : N) :
  requests w !! rq_ref = Some rq ->
  responses w !! rs_ref = Some rs ->
  Response.finish rs = [] ->
  pattern <> "" ->
  let routed := Request.make (Request.method rq)
                             (Some (Route.make (JS.str pattern)))
                             (Request.path rq) in
  let w' := run client register
              [Use rq_ref rs_ref;
               Application <[rq_ref := routed]> (alter (res_status code) rs_ref);
               Elapse ns;
               Finish rs_ref] w in
  let l := mkLabels (Request.method rq) (normalizedRoute pattern) (JS.toString code) in
  counter_value w' l = (counter_value w l + 1)%N /\
  observations w' l =
    observations w l ++ [durationInSeconds (hrtime w) (hrtime w + Z.of_N ns)] /\
  (forall l', l' <> l -> counter_value w' l' = counter_value w l').
Proof.
  intros Hrq Hrs Hfresh Hp. cbn zeta.
  unfold run. cbn [foldl].
  set (cb := closure (hrtime w) rq_ref rs_ref).
  assert (step client register (Use rq_ref rs_ref) w =
          set_responses <[rs_ref := Response.on cb rs]> w) as ->.
  { cbn [step]. by rewrite (metricsMiddleware_registers w rq_ref rs_ref rs (ret tt) Hrs). }
  set (routed := Request.make (Request.method rq)
                              (Some (Route.make (JS.str pattern)))
                              (Request.path rq)).
  set (w3 := step client register (Elapse ns) _).
  assert (hrtime w3 = hrtime w + Z.of_N ns) as Ht by reflexivity.
  assert (requests w3 !! rq_ref = Some routed) as Hrq3.
  { cbn. apply lookup_insert_eq. }
  assert (responses w3 !! rs_ref = Some (res_status code (Response.on cb rs))) as Hrs3.
  { cbn. rewrite lookup_alter_eq, lookup_insert_eq. reflexivity. }
  assert (labels_of w3 cb =
          Some (mkLabels (Request.method rq) (normalizedRoute pattern)
                         (JS.toString code))) as Hl.
  { unfold labels_of. cbn [req res cb]. rewrite Hrq3, Hrs3.
    assert (route_of routed = JS.str pattern) as ->; [|reflexivity].
    apply String.eqb_neq in Hp.
    unfold route_of, JS.or, JS.optional, routed.
    cbn [Request.route Route.path JS.truthy]. rewrite Hp.
    cbn [negb JS.truthy]. by rewrite Hp. }
  assert (Response.finish (res_status code (Response.on cb rs)) = [cb]) as Hcb
    by (cbn; by rewrite Hfresh).
  rewrite (step_Finish_records client register w3 rs_ref _ cb _ Hrs3 Hcb Hl).
  rewrite Ht. cbn [start cb].
  rewrite !counter_value_record, !observations_record.
  rewrite !decide_True by done. split; [reflexivity|]. split; [reflexivity|].
  intros l' Hne. rewrite counter_value_record, decide_False by done.
  change (counter_value w3 l') with (counter_value w l'). lia.
Qed.


Lemma labels_are_read_at_completion_witness :
  counter_value
    (run Example.client Example.register
       [Use 1 1;
        Application <[1%nat := Request.make "GET"
                                 (Some (Route.make (JS.str "/bookings/:id")))
                                 (JS.str "/bookings/507f1f77bcf86cd799439011")]>
                    (alter (res_status 404) 1%nat);
        Elapse 2500;
        Finish 1]%nat
       Example.arriving)
    (mkLabels "GET" "/bookings/:id" "404") = 1%N.
Proof.
  apply (labels_are_read_at_completion Example.client Example.register
           Example.arriving 1 1 Example.request (Response.make 200 ∅ None [])
           "/bookings/:id" 404 2500 eq_refl eq_refl eq_refl).
  discriminate.
Defined.

(** X15.  The handler of [GET /metrics] leaves the callback of the
    middleware in place: when the scrape itself passes through the
    middleware, the text it gets shows the registry as it was before the
    scrape was counted, and the scrape is counted once its response
    completes, under its own method, route and status. *)
Theorem scrape_request_is_counted
    (client : PromClient) (register : Registry) (w : World)
    (rq_ref rs_ref : nat) (rq : Request.t) (rs : Response.t) (p : string)
    (a b : N) :
  requests w !! rq_ref = Some rq ->
  responses w !! rs_ref = Some rs ->
  Response.finish rs = [] ->
  route_of rq = JS.str p ->
  exists w1 : World,
    let l := mkLabels (Request.method rq) (normalizedRoute p)
                      (JS.toString (Response.statusCode rs)) in
    let w' := run client register
                [Use rq_ref rs_ref; Elapse a; Scrape rq_ref rs_ref; Elapse b;
                 Finish rs_ref] w in
    histogram_hashMap w1 = histogram_hashMap w /\
    counter_hashMap w1 = counter_hashMap w /\
    (Response.body <$> responses w' !! rs_ref) =
      Some (Some (exposition client (getMetricsAsArray register w1))) /\
    counter_value w' l = (counter_value w l + 1)%N /\
    observations w' l =
      observations w l ++
      [durationInSeconds (hrtime w) (hrtime w + Z.of_N a + Z.of_N b)].
Proof.
  intros Hrq Hrs Hfresh Hp.
  unfold run. cbn [foldl].
  set (cb := closure (hrtime w) rq_ref rs_ref).
  assert (step client register (Use rq_ref rs_ref) w =
          set_responses <[rs_ref := Response.on cb rs]> w) as ->.
  { cbn [step]. by rewrite (metricsMiddleware_registers w rq_ref rs_ref rs (ret tt) Hrs). }
  set (w2 := step client register (Elapse a) _).
  assert (responses w2 !! rs_ref = Some (Response.on cb rs)) as Hrs2
    by apply lookup_insert_eq.
  pose proof (metricsHandler_responds client register w2 rq_ref rs_ref _ Hrs2) as Hscrape.
  cbn zeta in Hscrape.
  set (w1 := set_responses _ w2) in Hscrape.
  set (text := exposition client (getMetricsAsArray register w1)) in Hscrape.
  exists w1. cbn zeta.
  assert (step client register (Scrape rq_ref rs_ref) w2 =
          set_responses
            <[rs_ref := Response.end_ text
                          (Response.set "Content-Type" (contentType register)
                                        (Response.on cb rs))]> w1) as ->.
  { cbn [step]. by rewrite Hscrape. }
  set (w4 := step client register (Elapse b) _).
  assert (responses w4 !! rs_ref =
          Some (Response.end_ text
                  (Response.set "Content-Type" (contentType register)
                                (Response.on cb rs)))) as Hrs4
    by apply lookup_insert_eq.
  assert (labels_of w4 cb =
          Some (mkLabels (Request.method rq) (normalizedRoute p)
                         (JS.toString (Response.statusCode rs)))) as Hl.
  { unfold labels_of. cbn [req res cb]. rewrite Hrs4.
    change (requests w4) with (requests w). by rewrite Hrq, Hp. }
  assert (Response.finish
            (Response.end_ text
               (Response.set "Content-Type" (contentType register)
                             (Response.on cb rs))) = [cb]) as Hcb
    by (cbn; by rewrite Hfresh).
  rewrite (step_Finish_records client register w4 rs_ref _ cb _ Hrs4 Hcb Hl).
  split; [reflexivity|]. split; [reflexivity|].
  split.
  { change (responses (record_request _ _ w4)) with (responses w4).
    by rewrite Hrs4. }
  rewrite counter_value_record, observations_record, !decide_True by done.
  split; reflexivity.
Qed.

Lemma scrape_request_is_counted_witness :
  counter_value
    (run Example.client Example.register
       [Use 4 4; Elapse 10; Scrape 4 4; Elapse 20; Finish 4]%nat Scenario.scraping)
    (mkLabels "GET" "/metrics" "200") = 1%N.
Proof.
  destruct (scrape_request_is_counted Example.client Example.register
              Scenario.scraping 4 4 Scenario.scrape (Response.make 200 ∅ None [])
              "/metrics" 10 20 eq_refl eq_refl eq_refl eq_refl)
    as (w1 & _ & _ & _ & Hc & _).
  exact Hc.
Defined.

(** ** The load of the module, lines 8 to 33 *)

Section Load.

Variable client : PromClient.

Lemma registerMetric_inr_iff m r :
  (exists r', registerMetric m r = inr r') <-> (name m ∉ name <$> _metrics r).
Proof.
  unfold registerMetric. case_bool_decide as Hin; split.
  - intros [r' H]. discriminate H.
  - intros H. contradiction.
  - intros _. exact Hin.
  - intros _. eauto.
Qed.

Lemma registerMetrics_inr_iff ms r :
  (exists r', registerMetrics ms r = inr r') <->
  NoDup (name <$> ms) /\ (forall m, m ∈ ms -> name m ∉ name <$> _metrics r).
Proof.
  revert r. induction ms as [|m ms IH]; intros r.
  - cbn. split; [|eauto]. intros _. split; [constructor|].
    intros m Hm. by apply elem_of_nil in Hm.
  - cbn [registerMetrics]. rewrite fmap_cons, NoDup_cons.
    destruct (registerMetric m r) as [e|r1] eqn:E.
    + split; [intros [r' H]; discriminate H|].
      intros [_ Hfree]. exfalso.
      assert (exists r', registerMetric m r = inr r') as [r' Hr'].
      { apply registerMetric_inr_iff, Hfree, list_elem_of_here. }
      rewrite E in Hr'. discriminate Hr'.
    + pose proof E as E'.
      apply registerMetric_inr in E' as (Hm & Hms & _ & _).
      rewrite IH, Hms. split.
      * intros [Hnd Hfree]. split; [split; [|exact Hnd]|].
        -- intros Hin. apply list_elem_of_fmap in Hin as (m' & Heq & Hin).
           apply (Hfree m' Hin). rewrite fmap_app, elem_of_app. right.
           rewrite <- Heq. apply list_elem_of_here.
        -- intros m' Hin. apply elem_of_cons in Hin as [->|Hin]; [exact Hm|].
           intros Hin'. apply (Hfree m' Hin). rewrite fmap_app, elem_of_app. by left.
      * intros [[Hm' Hnd] Hfree]. split; [exact Hnd|].
        intros m' Hin. rewrite fmap_app, elem_of_app. intros [Hin'|Hin'].
        -- apply (Hfree m'); [by apply list_elem_of_further | exact Hin'].
        -- apply list_elem_of_singleton in Hin'. apply Hm'. rewrite <- Hin'.
           by apply list_elem_of_fmap_2.
Qed.

Lemma registerMetrics_app ms1 ms2 r :
  registerMetrics (ms1 ++ ms2) r =
    match registerMetrics ms1 r with
    | inl e => inl e
    | inr r1 => registerMetrics ms2 r1
    end.
Proof.
  revert r. induction ms1 as [|m ms1 IH]; intros r; [reflexivity|].
  cbn [app registerMetrics]. destruct (registerMetric m r); [reflexivity | apply IH].
Qed.

(** The load succeeds when the registrations in [register] succeed and
    those in the library registry do. *)
Lemma module_load_in_iff globalRegistry :
  (exists g register, module_load_in client globalRegistry = inr (g, register)) <->
  (exists r, registerMetrics
               (defaultMetrics client ++ [httpRequestDuration; httpRequestsTotal])
               (setDefaultLabels {[ "service" := LStr "booking-service" ]}
                                 new_Registry) = inr r) /\
  (exists g, registerMetrics [httpRequestDuration; httpRequestsTotal]
                             globalRegistry = inr g).
Proof.
  unfold module_load_in, collectDefaultMetrics, new_Metric.
  rewrite registerMetrics_app. cbn [registerMetrics].
  destruct (registerMetrics (defaultMetrics client) _) as [e|r1].
  { split; [intros (? & ? & [=]) | intros [[? [=]] _]]. }
  destruct (registerMetric httpRequestDuration globalRegistry) as [e|g1].
  { split; [intros (? & ? & [=]) | intros [_ [? [=]]]]. }
  destruct (registerMetric httpRequestDuration r1) as [e|r2].
  { split; [intros (? & ? & [=]) | intros [[? [=]] _]]. }
  destruct (registerMetric httpRequestsTotal g1) as [e|g2].
  { split; [intros (? & ? & [=]) | intros [_ [? [=]]]]. }
  destruct (registerMetric httpRequestsTotal r2) as [e|r3].
  { split; [intros (? & ? & [=]) | intros [[? [=]] _]]. }
  split; eauto.
Qed.

End Load.

(** X16.  Loading the module succeeds exactly when the default
    instruments of the library have names that differ from one another and
    from [http_request_duration_seconds] and [http_requests_total], and
    neither of these two names is taken in the registry of the library, in
    which the constructors enter the two instruments; otherwise a
    registration throws and the module exports nothing.  In a process that
    built no instrument before, the condition on the names of the default
    instruments is enough. *)
Theorem module_load_succeeds_iff (client : PromClient) (globalRegistry : Registry) :
  ((exists g register, module_load_in client globalRegistry = inr (g, register)) <->
   NoDup ((name <$> defaultMetrics client) ++
          ["http_request_duration_seconds"; "http_requests_total"]) /\
   ("http_request_duration_seconds" ∉ name <$> _metrics globalRegistry) /\
   ("http_requests_total" ∉ name <$> _metrics globalRegistry)) /\
  ((exists register, module_load client = inr register) <->
   NoDup ((name <$> defaultMetrics client) ++
          ["http_request_duration_seconds"; "http_requests_total"])).
Proof.
  assert (forall g,
    (exists g' register, module_load_in client g = inr (g', register)) <->
    NoDup ((name <$> defaultMetrics client) ++
           ["http_request_duration_seconds"; "http_requests_total"]) /\
    ("http_request_duration_seconds" ∉ name <$> _metrics g) /\
    ("http_requests_total" ∉ name <$> _metrics g)) as Hin.
  { intros g. rewrite module_load_in_iff, !registerMetrics_inr_iff, fmap_app.
    cbn [fmap list_fmap name httpRequestDuration httpRequestsTotal
         setDefaultLabels new_Registry _metrics].
    split.
    - intros [[Hnd _] [_ Hfree]]. split; [exact Hnd|]. split.
      + apply (Hfree httpRequestDuration). apply list_elem_of_here.
      + apply (Hfree httpRequestsTotal). apply list_elem_of_further, list_elem_of_here.
    - intros (Hnd & Hd & Ht). split; split.
      + exact Hnd.
      + intros m _ Hm. by apply elem_of_nil in Hm.
      + apply NoDup_cons. split; [|apply NoDup_singleton].
        intros Hm. apply list_elem_of_singleton in Hm. discriminate Hm.
      + intros m Hm. apply elem_of_cons in Hm as [->|Hm]; [exact Hd|].
        apply list_elem_of_singleton in Hm as ->. exact Ht. }
  split; [apply Hin|].
  assert ((exists register, module_load client = inr register) <->
          (exists g register, module_load_in client new_Registry = inr (g, register)))
    as ->.
  { unfold module_load.
    destruct (module_load_in client new_Registry) as [e|[g r]].
    - split; [intros [? [=]] | intros (? & ? & [=])].
    - split; eauto. }
  rewrite Hin. cbn [new_Registry _metrics fmap list_fmap].
  split; [tauto|]. intros Hnd. split; [exact Hnd|].
  split; intros Hm; by apply elem_of_nil in Hm.
Qed.

(** X17.  Nothing is recorded before a response completes: along a
    sequence of events without a completion, however many requests pass
    through the middleware and whatever the application and the scrapes do,
    the histogram and the counter stay as they were.  A request whose
    response never completes is never counted. *)
Theorem unfinished_requests_are_not_recorded
    (client : PromClient) (register : Registry)
    (tr : list Event) (w : World) :
  completions tr = O ->
  histogram_hashMap (run client register tr w) = histogram_hashMap w /\
  counter_hashMap (run client register tr w) = counter_hashMap w.
Proof. apply run_without_completion. Qed.

Lemma unfinished_requests_are_not_recorded_witness :
  counter_hashMap
    (run Example.client Example.register
       [Use 1 1; Elapse 500; Use 2 2; Scrape 2 2; Elapse 2000]%nat
       Example.two_arriving) = ∅.
Proof.
  apply (unfinished_requests_are_not_recorded Example.client Example.register
           [Use 1 1; Elapse 500; Use 2 2; Scrape 2 2; Elapse 2000]%nat
           Example.two_arriving).
  reflexivity.
Defined.

(** ** The middleware and its callback, lines 38 to 60 *)

(** X18.  A request whose route label is a string is recorded exactly
    once when its response completes, whatever the status code.  The
    middleware, run on a response without listeners, leaves one listener on
    it, which holds the clock reading of that moment; in any later state of
    the process in which the response carries that listener, its completion
    returns, adds one to the counter and one observation to the histogram,
    both under the label set made of the method, the normalised route and
    the status code as a string, and leaves every other label set and the
    rest of the process as they were. *)
Theorem one_observation_one_increment
    (w0 w : World) (rq_ref rs_ref : nat)
    (rs0 : Response.t) (rq : Request.t) (rs : Response.t) (p : string)
    (next : M unit) :
  responses w0 !! rs_ref = Some rs0 ->
  Response.finish rs0 = [] ->
  requests w !! rq_ref = Some rq ->
  route_of rq = JS.str p ->
  responses w !! rs_ref = Some rs ->
  Response.finish rs = [closure (hrtime w0) rq_ref rs_ref] ->
  let l := mkLabels (Request.method rq) (normalizedRoute p)
                    (JS.toString (Response.statusCode rs)) in
  let d := durationInSeconds (hrtime w0) (hrtime w) in
  exists (w1 : World) (rs1 : Response.t) (w' : World),
    metricsMiddleware rq_ref rs_ref next w0 = next w1 /\
    responses w1 = <[rs_ref := rs1]> (responses w0) /\
    Response.finish rs1 = [closure (hrtime w0) rq_ref rs_ref] /\
    emit_finish rs_ref w = Return tt w' /\
    w' = record_request l d w /\
    (forall l', counter_value w' l' =
                  (counter_value w l' + if decide (l' = l) then 1 else 0)%N) /\
    (forall l', observations w' l' =
                  observations w l' ++ if decide (l' = l) then [d] else []).
Proof.
  intros Hrs0 Hfresh Hrq Hp Hrs Hcb. cbn zeta.
  pose proof (on_finish_records w (closure (hrtime w0) rq_ref rs_ref) rq rs p
                Hrq Hrs Hp) as Hrun.
  eexists _, _, _.
  split; [by apply metricsMiddleware_registers|].
  split; [reflexivity|].
  split; [cbn; by rewrite Hfresh|].
  split.
  { rewrite (emit_finish_single _ _ _ _ Hrs Hcb).
    rewrite (bind_Return _ _ _ _ _ Hrun). reflexivity. }
  split; [reflexivity|].
  split; intros l'; [apply counter_value_record | apply observations_record].
Qed.

Lemma one_observation_one_increment_witness :
  exists w' : World,
    emit_finish 1 Example.completing = Return tt w' /\
    counter_value w' Example.labels_404 = 8%N /\
    observations w' Example.labels_404 = [durationInSeconds 100 2600].
Proof.
  destruct (one_observation_one_increment
              Example.arriving Example.completing 1 1
              (Response.make 200 ∅ None []) Example.request
              (Response.make 404 ∅ None [closure 100 1 1])
              "/bookings/507f1f77bcf86cd799439011" (ret tt)
              eq_refl eq_refl eq_refl eq_refl eq_refl eq_refl)
    as (w1 & rs1 & w' & _ & _ & _ & Hrun & _ & Hc & Ho).
  exists w'. split; [exact Hrun|].
  rewrite (Hc Example.labels_404), (Ho Example.labels_404).
  split; vm_compute; reflexivity.
Defined.

(** X19.  The middleware hands control to [next] once, in a world that
    differs from the one it was called in by one listener appended to the
    response: the status code, the headers and the body of the response,
    every other response, the requests, the clock and the registry are as
    they were, and what [next] returns or throws is what the middleware
    returns or throws.  Whatever the callback does when it fires, record
    once or throw before it has recorded, it leaves the clock, the requests
    and the responses as they were. *)
Theorem middleware_is_an_observer
    (w : World) (rq_ref rs_ref : nat) (rs : Response.t) (next : M unit) :
  responses w !! rs_ref = Some rs ->
  (exists (w1 : World) (rs1 : Response.t),
     metricsMiddleware rq_ref rs_ref next w = next w1 /\
     hrtime w1 = hrtime w /\
     requests w1 = requests w /\
     histogram_hashMap w1 = histogram_hashMap w /\
     counter_hashMap w1 = counter_hashMap w /\
     responses w1 = <[rs_ref := rs1]> (responses w) /\
     Response.statusCode rs1 = Response.statusCode rs /\
     Response.headers rs1 = Response.headers rs /\
     Response.body rs1 = Response.body rs /\
     Response.finish rs1 = Response.finish rs ++ [closure (hrtime w) rq_ref rs_ref]) /\
  (forall (w2 : World) (cb : Closure),
     ((exists e, on_finish cb w2 = Throw e w2) \/
      (exists l d, on_finish cb w2 = Return tt (record_request l d w2))) /\
     hrtime (world_of (on_finish cb w2)) = hrtime w2 /\
     requests (world_of (on_finish cb w2)) = requests w2 /\
     responses (world_of (on_finish cb w2)) = responses w2).
Proof.
  intros Hrs. split.
  - eexists _, _. split; [by apply metricsMiddleware_registers|].
    repeat split; reflexivity.
  - intros w2 cb. split; [apply on_finish_cases|].
    destruct (on_finish_cases cb w2) as [(e & ->)|(l & d & ->)];
      repeat split; reflexivity.
Qed.

Lemma middleware_is_an_observer_witness :
  exists w1 : World,
    metricsMiddleware 1 1 (ret tt) Example.arriving = Return tt w1 /\
    requests w1 = requests Example.arriving /\
    (Response.statusCode <$> responses w1 !! 1%nat) = Some 200 /\
    counter_hashMap w1 = ∅.
Proof.
  destruct (middleware_is_an_observer Example.arriving 1 1
              (Response.make 200 ∅ None []) (ret tt) eq_refl)
    as [(w1 & rs1 & Hrun & _ & Hrq & _ & Hc & Hrs & Hst & _) _].
  exists w1. split; [exact Hrun|]. split; [exact Hrq|].
  split; [|exact Hc]. rewrite Hrs, lookup_insert_eq. cbn. by rewrite Hst.
Defined.

(** X20.  A request whose route label is not a string, because the path
    of the route it matched is a regular expression or an array, is never
    recorded: the middleware puts its callback on the response, the router
    matches the request, and when the response completes the callback throws
    a [TypeError] before it has written anything; the histogram and the
    counter are as they were before the request. *)
Theorem nonstring_route_is_not_recorded
    (client : PromClient) (register : Registry) (w : World)
    (rq_ref rs_ref : nat) (rq : Request.t) (rs : Response.t)
    (pattern : JS.value) (ns : N) :
  requests w !! rq_ref = Some rq ->
  responses w !! rs_ref = Some rs ->
  Response.finish rs = [] ->
  JS.truthy pattern = true ->
  (forall s, pattern <> JS.str s) ->
  let routed := Request.make (Request.method rq) (Some (Route.make pattern))
                             (Request.path rq) in
  let tr := [Use rq_ref rs_ref; Application <[rq_ref := routed]> id; Elapse ns] in
  let w1 := run client register tr w in
  emit_finish rs_ref w1 =
    Throw (JS.TypeError "route.replace is not a function") w1 /\
  run client register (tr ++ [Finish rs_ref]) w = w1 /\
  histogram_hashMap w1 = histogram_hashMap w /\
  counter_hashMap w1 = counter_hashMap w.
Proof.
  intros Hrq Hrs Hfresh Htruthy Hpattern. cbn zeta.
  set (routed := Request.make (Request.method rq) (Some (Route.make pattern))
                              (Request.path rq)).
  set (tr := [Use rq_ref rs_ref; Application <[rq_ref := routed]> id; Elapse ns]).
  set (cb := closure (hrtime w) rq_ref rs_ref).
  assert (run client register tr w =
          step client register (Elapse ns)
            (step client register (Application <[rq_ref := routed]> id)
               (set_responses <[rs_ref := Response.on cb rs]> w))) as Hw1.
  { unfold tr, run. cbn [foldl]. do 2 f_equal. cbn [step].
    by rewrite (metricsMiddleware_registers w rq_ref rs_ref rs (ret tt) Hrs). }
  set (w1 := run client register tr w) in *.
  assert (requests w1 !! rq_ref = Some routed) as Hrq1.
  { rewrite Hw1. cbn. apply lookup_insert_eq. }
  assert (responses w1 !! rs_ref = Some (Response.on cb rs)) as Hrs1.
  { rewrite Hw1. cbn. apply lookup_insert_eq. }
  assert (route_of routed = pattern) as Hroute.
  { unfold route_of, JS.or, routed. cbn [Request.route JS.optional Route.path].
    by rewrite !Htruthy. }
  assert (emit_finish rs_ref w1 =
          Throw (JS.TypeError "route.replace is not a function") w1) as Hrun.
  { unfold emit_finish, bind, load_response. rewrite Hrs1.
    cbn [Response.on Response.finish]. rewrite Hfresh.
    cbn [app run_listeners]. unfold bind.
    rewrite (on_finish_not_a_string w1 cb routed Hrq1); [reflexivity|].
    by rewrite Hroute. }
  split; [exact Hrun|]. split.
  - rewrite run_app. fold w1. unfold run. cbn [foldl step]. by rewrite Hrun.
  - rewrite Hw1. split; reflexivity.
Qed.

Lemma nonstring_route_is_not_recorded_witness :
  run Example.client Example.register
      (Scenario.regexp_routed ++ [Finish 1%nat]) Scenario.arriving_42 =
  run Example.client Example.register Scenario.regexp_routed Scenario.arriving_42.
Proof.
  destruct (nonstring_route_is_not_recorded Example.client Example.register
              Scenario.arriving_42 1 1 Scenario.booking_42
              (Response.make 200 ∅ None [])
              (JS.regexp "^\/bookings\/(\d+)$") 2500
              eq_refl eq_refl eq_refl eq_refl)
    as (_ & Hrun & _).
  { intros s Hs. discriminate Hs. }
  exact Hrun.
Defined.

(** ** The duration, line 43 *)

(** X21.  The duration observed for a span of less than 2^53 ns is a
    double, an integer of 53 bits (or 2^53) times a power of two, and it is
    the nearest one: no multiple of that power of two is nearer to the span
    in seconds. *)
Theorem duration_is_a_nearest_double (t0 t1 : Z) :
  0 < t1 - t0 < 2 ^ 53 ->
  let elapsed := (inject_Z (t1 - t0) / inject_Z (10 ^ 9))%Q in
  exists m e : Z,
    durationInSeconds t0 t1 = (inject_Z m * 2 ^ e)%Q /\
    2 ^ 52 <= m <= 2 ^ 53 /\
    forall k : Z,
      (Qabs (inject_Z m * 2 ^ e - elapsed) <= Qabs (inject_Z k * 2 ^ e - elapsed))%Q.
Proof.
  intros Hspan. cbn zeta. unfold durationInSeconds, JS.div, JS.Number.
  pose proof (binary64_exact (t1 - t0) ltac:(lia)) as Hexact.
  set (n := JS.binary64 (inject_Z (t1 - t0))) in *.
  assert (inject_Z (t1 - t0) / inject_Z (10 ^ 9) == n / 1e9)%Q as Heq
    by (by rewrite Hexact).
  assert (0 < n / 1e9)%Q as Hq.
  { apply Qlt_shift_div_l; [done|]. rewrite Qmult_0_l, Hexact.
    change 0%Q with (inject_Z 0). rewrite <- Zlt_Qlt. lia. }
  destruct (binary64_is_double (n / 1e9) Hq) as (Hd & Hm & Hnear).
  cbn zeta in *. eexists _, _. split; [exact Hd|]. split; [exact Hm|].
  intros k. rewrite !Heq. apply Hnear.
Qed.

Lemma duration_is_a_nearest_double_witness :
  exists m e : Z,
    durationInSeconds 100 2600 = (inject_Z m * 2 ^ e)%Q /\
    2 ^ 52 <= m <= 2 ^ 53.
Proof.
  destruct (duration_is_a_nearest_double 100 2600) as (m & e & Hd & Hm & _).
  { lia. }
  exists m, e. split; [exact Hd | exact Hm].
Defined.
